(* ===== verification/_CoqProject ===== *)
-Q . S2P
Prelude.v
Segmenter.v
Accumulate.v
Education.v
Experience.v
Projects.v
Skills.v
Introduction.v
Processor.v
Candidate.v
QA.v
Store.v
Blob.v
Api.v
