(* ===== verification/Prelude.v ===== *)
(** * A verification development of the resume-processing service

    ** The program
    The repository is a FastAPI service (src/app/main.py) that stores an
    uploaded PDF/DOCX resume in a blob store (services/supabase_service.py),
    converts it to plain text and extracts a structured candidate record
    with rule-based text heuristics (services/resume_processor.py), saves
    the record in a document store (services/mongodb_service.py) and answers
    questions about a candidate with a three-tier strategy
    (services/qa_service.py).  The data model is models/candidate.py.
    The heart of the program, and of this development, is the extractor
    [ResumeProcessor]: [process_resume] calls seven extractors, each of
    which finds its section with [_extract_section] and scans its lines.

    ** Text
    A Python [str] is a sequence of code points.  The model's alphabet
    [uchar] is the ASCII characters plus the bullet U+2022, the one
    non-ASCII character the code mentions.  On this alphabet every string
    operation and every regular-expression class the code uses has an exact
    definition here: [str.upper]/[str.lower] change only ASCII letters,
    [\s] and [str.strip] use the same whitespace set (9-13, 28-32), [\w]
    is [A-Za-z0-9_], [\d] is [0-9], and [re.IGNORECASE] identifies the two
    cases of an ASCII letter.  Text outside this alphabet is not modelled
    (see the findings: [str.upper] may change the length of non-ASCII
    text, which the segmenter's index arithmetic does not expect).
    Regular expressions are not interpreted from a syntax: each pattern of
    the code is one executable matcher (a prefix test or a function that
    returns the length of the match at the current position), and
    [re.search], [re.findall], [str.find], [str.count] and [str.split]
    are the generic scanners [find_pos], [findall], [count_sub] and
    [py_split] of this file applied to it.

    ** Files
    - [Prelude] (this file): the alphabet, the Python string built-ins
      ([strip], [split], [find], [in], [count], [join], slicing), the
      scanners, the hint databases [pystr] and [pystr_rw], and the lemmas
      the components share (on [find_pos], [prefix_by], [split_by], [join],
      [upper], [strip], [str.count] across a safe character, the last
      piece of [str.split], [re.findall] across a character no match can
      cover, loops as [fold_left]).
    - [Segmenter]: [_extract_section] (lines 257-272): the section names
      are looked up in [text.upper()], the section runs to the next header
      line.  Theorems: the section starts with its name and stops at the
      next header (C5), absent names give the empty text (C16), extracting
      the same section from the section is the identity (C4).
    - [Accumulate]: the blank-line record loop that [_extract_education],
      [_extract_experience] and [_extract_projects] share, parameterised by
      the per-line update (Section [Loop]); the dict writes of the code
      ([if k not in d: d[k] = v], [d[k] += " " + line]) and their
      abstractions.  Theorem: the loop computes one record per block of
      non-blank lines (C3); Sections [FirstWriter] and [Appender] give the
      record of a block when every key is written once or appended to.
    - [Education], [Experience], [Projects]: the three record extractors,
      each with its update function and a declarative record of a block
      ([edu_record_spec], [exp_record_spec], [proj_record_spec]); the
      refinement theorems C1, C2, C14 say the extractor returns these
      records.  C9: a one-date line blocks the end date of its block; C10:
      the first project is named after the section header.
    - [Skills]: Modules [Skills], [Hobbies], [Certifications], the three
      list extractors.  Theorems: no duplicate skills (C6), every skill has
      at least three characters, so "Go" is never a skill (C7), at most ten
      hobbies of 3 to 49 characters (C8), the first certification and the
      first hobby are the section header (C11, C12).
    - [Introduction]: [_extract_introduction]; C13: five blank first lines
      give an empty introduction whatever follows.
    - [Processor]: [extract_text] with the PDF/DOCX libraries as a record
      of functions [DocReaders], and [process_resume], whose record
      respects every cap of the code, with its NER pass over the first
      five 512-character chunks (the NER pipeline an optional function).
      Theorems: the NER pass reads at most five chunks, a prefix of the
      first 2560 characters (C34); the chunks join back to the text and
      none is empty or longer than 512 characters (C35).
    - [Candidate]: the pydantic models (models/candidate.py) as records
      and [Candidate( **doc)] over a stored document.  Theorem: every
      extracted education entry has the type of the [Education] model and
      survives it unchanged (C33).
    - [QA]: the answer composer (qa_service.py): the context formatter,
      the rule-based answers, the generative fallback and
      [answer_question], with the two remote models as a record of
      functions [Remote] from the request to a response.  Theorems: the
      code computes the spec's three-tier chain except on a malformed
      [200] payload, where it returns [None] (C17, C18); the spec's
      scenario (C19); the generative answer is the text after the last
      "Answer:" marker (C20); the experience rule reports 0 entries for
      every candidate whose texts do not mention "title" or "company"
      (C21); the graduation rule reports the end year of the last job as
      the graduation year (C22); the answer depends only on the fields the
      context formats, and on the first 20 skills (C23).
    - [Store]: the Mongo collection (mongodb_service.py) as its list of
      documents with [update_one(..., upsert=True)], [find_one] and the
      summaries; its key-value view [to_map].  Theorems: a save is an
      insertion of the view (C24), lookup after save (C25), unique ids
      and one summary per candidate (C26).
    - [Blob]: [SupabaseService.upload_file] with the client as a record
      of call outcomes [Storage] and the clock as input.  Theorems: the
      URL and the table are best effort (C27).
    - [Api]: the routes of main.py as [handle] on the state [world] (blob
      store and collection) under any collaborators [Env], and the
      reachable states as a step relation.  Theorems: every reachable
      state has unique ids and records within the caps (C16); an
      unsupported extension is a 500, not a format error (C28); an
      unknown id is a 404 (C29); a failed extraction leaves an orphan
      blob (C30); an uploaded record is returned by the get route (C31);
      every response to a request of [request] has status 200, 404 or 500
      (C32); the list route respects the caps of the summaries and of the
      stored records (C36).

    ** Termination and bounds
    Every loop of the extractors runs over a finite list (the lines, the
    pieces of a line, the keyword table) and is a [fold_left] or a
    structural [Fixpoint].  The scanners that skip over a match
    ([findall], [str.count], [str.split]) carry a skip counter and recurse
    on the text, so no fuel is needed and every definition computes by
    [vm_compute].  The one definition with fuel is the 512-character
    chunking of the NER pass ([chunks_go]), given the length of the text:
    each step consumes at least one character, and [chunks_go_fuel_eq]
    shows that any larger fuel gives the same chunks.  The caps of the
    code (5, 10, 30 entries, 500 characters) are [take]s, and C16 states
    them for every stored record.

    ** Not modelled
    The NER model of [process_resume] is a parameter; the entities it
    returns are never used, so only its calls are recorded.  The PDF and DOCX libraries,
    the remote models, the Supabase client and the clock are parameters
    of the handlers: every theorem holds for all of their behaviours
    unless it names one.  Client set-up, environment variables, printed
    warnings, CORS and the server start are configuration and I/O.
    Requests are the well-formed ones of [request]: the responses FastAPI
    itself produces for a request that does not reach a handler (405 for
    an unknown method, 422 for a missing form field or path parameter)
    are outside C32.
    Exceptions of the Mongo driver are not modelled (the handlers would
    turn them into 500 responses).  Requests are handled one at a time:
    the spec's request-level parallelism shares no state but the stores,
    whose operations are single calls. *)

From Stdlib Require Export Ascii.
From Stdlib Require Import String.
From stdpp Require Export base list strings gmap.

Declare Scope text_scope.
Delimit Scope text_scope with text.
Open Scope text_scope.

Create HintDb pystr discriminated.
Create Rewrite HintDb pystr_rw.

(** ** The alphabet *)

Inductive uchar := Asc (a : ascii) | Bullet.

#[export] Instance uchar_eq_dec : EqDecision uchar.
Proof. solve_decision. Defined.

#[export] Instance uchar_countable : Countable uchar.
Proof.
  refine (inj_countable'
            (fun c => match c with Asc a => Some a | Bullet => None end)
            (fun o => match o with Some a => Asc a | None => Bullet end) _).
  by intros [].
Defined.

(** A Python [str] over the alphabet. *)
Abbreviation text := (list uchar).

Definition txt (s : string) : text := map Asc (list_ascii_of_string s).

(** ‹"abc"› is the Python literal ["abc"]. *)
Notation "‹ s ›" := (txt s%string) (format "‹ s ›") : text_scope.

Definition code (c : uchar) : N :=
  match c with Asc a => N_of_ascii a | Bullet => 8226%N end.

Definition nl : uchar := Asc "010"%char.
Definition sp : uchar := Asc " "%char.

(** ** Character classes of [re] and of [str] methods *)

Definition in_range (lo hi : N) (c : uchar) : bool :=
  match c with Asc a => (lo <=? N_of_ascii a)%N && (N_of_ascii a <=? hi)%N | Bullet => false end.

(** [\s], [str.isspace]: [\t\n\v\f\r], the separators 28-31 and space. *)
Definition is_space (c : uchar) : bool := in_range 9 13 c || in_range 28 32 c.
(** [\d] *)
Definition is_digit (c : uchar) : bool := in_range 48 57 c.
(** [[A-Z]] (the pattern class, without [re.I]) *)
Definition is_upper (c : uchar) : bool := in_range 65 90 c.
Definition is_lower (c : uchar) : bool := in_range 97 122 c.
(** [\w] *)
Definition is_word (c : uchar) : bool :=
  is_digit c || is_upper c || is_lower c || bool_decide (c = Asc "_").

Definition to_upper (c : uchar) : uchar :=
  match c with
  | Asc a => if is_lower c then Asc (ascii_of_N (N_of_ascii a - 32)) else c
  | Bullet => c
  end.

Definition to_lower (c : uchar) : uchar :=
  match c with
  | Asc a => if is_upper c then Asc (ascii_of_N (N_of_ascii a + 32)) else c
  | Bullet => c
  end.

(** Character equality under [re.IGNORECASE]. *)
Definition eq_ci (a b : uchar) : bool := bool_decide (to_lower a = to_lower b).

(** ** String methods *)

(** [str.upper()], [str.lower()] *)
Definition upper (s : text) : text := map to_upper s.
Definition lower (s : text) : text := map to_lower s.

(** [str.lstrip()], [str.rstrip()], [str.strip()] *)
Fixpoint lstrip (s : text) : text :=
  match s with
  | c :: s' => if is_space c then lstrip s' else s
  | [] => []
  end.
Definition rstrip (s : text) : text := reverse (lstrip (reverse s)).
Definition strip (s : text) : text := rstrip (lstrip s).

(** Prefix test up to a character equivalence: [str.startswith] with
    [eqc = (=)], a pattern anchored at the current position under
    [re.I] with [eqc = eq_ci]. *)
Fixpoint prefix_by (eqc : uchar -> uchar -> bool) (p s : text) : bool :=
  match p, s with
  | [], _ => true
  | a :: p', b :: s' => eqc a b && prefix_by eqc p' s'
  | _ :: _, [] => false
  end.

Definition ceq (a b : uchar) : bool := bool_decide (a = b).

Definition starts_with (p s : text) : bool := prefix_by ceq p s.

(** The leftmost position at which an anchored test [P] succeeds: the
    scan of [re.search], which tries the positions [0 .. len(s)] in turn. *)
Fixpoint find_pos (P : text -> bool) (s : text) : option nat :=
  if P s then Some 0
  else match s with
       | [] => None
       | _ :: s' => S <$> find_pos P s'
       end.

(** First occurrence of [p] in [s]: [s.find(p)] (as an option), and the
    start of [re.search] for a literal pattern. *)
Definition find_by (eqc : uchar -> uchar -> bool) (p s : text) : option nat :=
  find_pos (prefix_by eqc p) s.

Definition find_sub (p s : text) : option nat := find_by ceq p s.

(** [p in s] *)
Definition contains (p s : text) : bool := bool_decide (is_Some (find_sub p s)).

(** [re.search("(?i)(p1|p2|...)", s)] for literal alternatives. *)
Definition search_ci (alts : list text) (s : text) : bool :=
  existsb (fun p => bool_decide (is_Some (find_by eq_ci p s))) alts.

(** [s.count(p)], non-overlapping, for a non-empty [p]: after an occurrence
    the scan resumes at its end, which the counter [skip] implements. *)
Fixpoint count_go (p : text) (skip : nat) (s : text) : nat :=
  match s with
  | [] => 0
  | _ :: s' =>
      match skip with
      | S k => count_go p k s'
      | O => if starts_with p s then S (count_go p (length p - 1) s')
             else count_go p 0 s'
      end
  end.
Definition count_sub (p s : text) : nat := count_go p 0 s.

(** [s.split(sep)] for a non-empty separator: the pieces between
    non-overlapping occurrences of [sep], scanned from the left. [cur]
    holds the current piece reversed. *)
Fixpoint split_go (sep : text) (skip : nat) (cur : text) (s : text) : list text :=
  match s with
  | [] => [reverse cur]
  | c :: s' =>
      match skip with
      | S k => split_go sep k cur s'
      | O => if starts_with sep s then reverse cur :: split_go sep (length sep - 1) [] s'
             else split_go sep 0 (c :: cur) s'
      end
  end.
Definition py_split (sep s : text) : list text := split_go sep 0 [] s.

(** [re.split("[...]", s)] for a character class [p]; on a list of lines
    it cuts the list into the groups between separator lines. *)
Fixpoint split_by_go {A} (p : A -> bool) (cur : list A) (s : list A) : list (list A) :=
  match s with
  | [] => [reverse cur]
  | c :: s' => if p c then reverse cur :: split_by_go p [] s' else split_by_go p (c :: cur) s'
  end.
Definition split_by {A} (p : A -> bool) (s : list A) : list (list A) := split_by_go p [] s.

(** [sep.join(l)] *)
Fixpoint join (sep : text) (l : list text) : text :=
  match l with
  | [] => []
  | [x] => x
  | x :: l' => x ++ sep ++ join sep l'
  end.

(** [re.findall(r, s)] for a pattern [r] whose matches are never empty and
    which has at most one group covering the whole match: [m s] is the
    length of the match of [r] at the start of [s] (leftmost alternative,
    Python's backtracking order), and after a match the scan resumes at its
    end. *)
Fixpoint findall_go (m : text -> option nat) (skip : nat) (s : text) : list text :=
  match s with
  | [] => []
  | _ :: s' =>
      match skip with
      | S k => findall_go m k s'
      | O => match m s with
             | Some n => take n s :: findall_go m (n - 1) s'
             | None => findall_go m 0 s'
             end
      end
  end.
Definition findall (m : text -> option nat) (s : text) : list text := findall_go m 0 s.

(** ** Pattern pieces *)

(** Length of the run of leading characters satisfying [p]: a greedy
    [c+] or [c*] for a character class [c]. *)
Fixpoint span_len (p : uchar -> bool) (s : text) : nat :=
  match s with
  | c :: s' => if p c then S (span_len p s') else 0
  | [] => 0
  end.

(** [\d{4}] at the head of a string. *)
Definition match_d4 (s : text) : option nat :=
  if (4 <=? length s) && forallb is_digit (take 4 s) then Some 4 else None.

(** [s.split("\n")[0]] *)
Definition first_line (s : text) : text := default [] (head (split_by (ceq nl) s)).

(** [x in l] on a Python list of strings *)
Definition list_mem (x : text) (l : list text) : bool := bool_decide (x ∈ l).

(** [sep.join] of lines given as Rocq strings: multi-line literals. *)
Definition lines (ls : list string) : text := join [nl] (map txt ls).

(** ** Shared lemmas *)

Section FindPos.
Context (P : text -> bool).

Lemma find_pos_Some s i :
  find_pos P s = Some i ->
  i <= length s /\ P (drop i s) = true /\ forall j, j < i -> P (drop j s) = false.
Proof.
  revert i; induction s as [|c s IH]; intros i; simpl;
    destruct (P _) eqn:HP; intros H; simplify_eq/=.
  - split_and!; [lia|done|intros; lia].
  - split_and!; [lia|done|intros; lia].
  - destruct (find_pos P s) as [i'|] eqn:E; simplify_eq/=.
    destruct (IH i' eq_refl) as (? & ? & Hlt).
    split_and!; [lia|done|]. intros [|j] ?; [done|]. apply Hlt; lia.
Qed.

Lemma find_pos_None s :
  find_pos P s = None -> forall j, j <= length s -> P (drop j s) = false.
Proof.
  induction s as [|c s IH]; simpl; destruct (P _) eqn:HP; intros H; simplify_eq/=.
  - intros j ?. by replace j with 0 by lia.
  - destruct (find_pos P s) eqn:E; simplify_eq/=.
    intros [|j] ?; [done|]. apply IH; [done|lia].
Qed.

Lemma find_pos_complete s i :
  i <= length s -> P (drop i s) = true -> is_Some (find_pos P s).
Proof.
  intros Hi HP. destruct (find_pos P s) eqn:E; [done|].
  by rewrite (find_pos_None s E i Hi) in HP.
Qed.

Lemma find_pos_first s i :
  i <= length s -> P (drop i s) = true ->
  (forall j, j < i -> P (drop j s) = false) -> find_pos P s = Some i.
Proof.
  revert i; induction s as [|c s IH]; intros i Hi HPi Hlt; simpl.
  - replace i with 0 in * by (simpl in Hi; lia). simpl in HPi. by rewrite HPi.
  - destruct i as [|i]; [simpl in HPi; by rewrite HPi|].
    pose proof (Hlt 0 ltac:(lia)) as H0; simpl in H0; rewrite H0.
    rewrite (IH i); [done|simpl in Hi; lia|done|].
    intros j ?. apply (Hlt (S j)); lia.
Qed.

(** A test that only looks at a prefix of its argument. *)
Definition prefix_stable : Prop := forall t u, P t = true -> P (t ++ u) = true.

Lemma find_pos_take_None s q :
  prefix_stable -> P [] = false -> find_pos P s = Some q ->
  find_pos P (take q s) = None.
Proof.
  intros Hst Hnil Hq. apply find_pos_Some in Hq as (Hle & _ & Hlt).
  destruct (find_pos P (take q s)) as [i|] eqn:E; [|done].
  apply find_pos_Some in E as (Hi & HPi & _).
  rewrite length_take in Hi.
  destruct (decide (i < q)) as [Hiq|Hiq].
  - assert (P (drop i s) = true) as HP.
    { rewrite <-(take_drop q s), drop_app_le by (rewrite length_take; lia). by apply Hst. }
    by rewrite (Hlt i Hiq) in HP.
  - replace i with q in HPi by lia.
    rewrite drop_ge in HPi by (rewrite length_take; lia). congruence.
Qed.

(** What a prefix-stable test finds in a slice [s[a:a+k]] it finds in [s]. *)
Lemma find_pos_slice s a k i :
  prefix_stable -> find_pos P (take k (drop a s)) = Some i ->
  exists j, find_pos P s = Some j /\ j <= a + i.
Proof.
  intros Hst H. apply find_pos_Some in H as (Hi & HPi & _).
  rewrite length_take, length_drop in Hi.
  assert (P (drop (a + i) s) = true) as HP.
  { rewrite <-drop_drop, <-(take_drop k (drop a s)), drop_app_le
      by (rewrite length_take, length_drop; lia). by apply Hst. }
  destruct (find_pos P s) as [j|] eqn:E.
  - exists j. split; [done|].
    apply find_pos_Some in E as (_ & _ & Hlt).
    destruct (decide (j <= a + i)); [done|]. by rewrite Hlt in HP by lia.
  - pose proof (find_pos_None s E (Nat.min (a + i) (length s)) ltac:(lia)) as Hn.
    destruct (decide (a + i <= length s)).
    + rewrite Nat.min_l in Hn by done. congruence.
    + rewrite Nat.min_r, drop_all in Hn by lia. rewrite drop_ge in HP by lia. congruence.
Qed.
End FindPos.

Lemma prefix_by_app eqc p t u :
  prefix_by eqc p t = true -> prefix_by eqc p (t ++ u) = true.
Proof.
  revert t; induction p as [|a p IH]; intros [|b t]; simpl; try done.
  rewrite !andb_true_iff. intros [? ?]; auto.
Qed.

Lemma prefix_by_stable eqc p : prefix_stable (prefix_by eqc p).
Proof. intros t u. apply prefix_by_app. Qed.

Lemma prefix_by_length eqc p t : prefix_by eqc p t = true -> length p <= length t.
Proof.
  revert t; induction p as [|a p IH]; intros [|b t]; simpl; try done; [lia|].
  rewrite andb_true_iff. intros [_ H]. apply IH in H. lia.
Qed.

Lemma prefix_by_take eqc p t k :
  prefix_by eqc p t = true -> length p <= k -> prefix_by eqc p (take k t) = true.
Proof.
  revert t k; induction p as [|a p IH]; intros [|b t] [|k]; simpl; try done; try lia.
  rewrite !andb_true_iff. intros [? ?] ?. split; [done|]. apply IH; [done|lia].
Qed.

Lemma length_upper s : length (upper s) = length s.
Proof. apply length_map. Qed.

Lemma upper_take n s : upper (take n s) = take n (upper s).
Proof. symmetry. apply firstn_map. Qed.

Lemma upper_drop n s : upper (drop n s) = drop n (upper s).
Proof. symmetry. apply skipn_map. Qed.

#[export] Hint Rewrite length_upper upper_take upper_drop : pystr_rw.
#[export] Hint Resolve prefix_by_stable : pystr.

(** [re.IGNORECASE] cannot tell a character from its upper-case form. *)
Lemma to_lower_to_upper c : to_lower (to_upper c) = to_lower c.
Proof.
  destruct c as [a|]; [|done].
  destruct a as [[] [] [] [] [] [] [] []]; vm_compute; reflexivity.
Qed.

Lemma eq_ci_to_upper a b : eq_ci a (to_upper b) = eq_ci a b.
Proof. unfold eq_ci. by rewrite to_lower_to_upper. Qed.

Lemma prefix_by_ci_upper p s : prefix_by eq_ci p (upper s) = prefix_by eq_ci p s.
Proof.
  revert s; induction p as [|a p IH]; intros [|b s]; simpl; try done.
  by rewrite eq_ci_to_upper, IH.
Qed.

Lemma find_by_ci_upper p s : find_by eq_ci p (upper s) = find_by eq_ci p s.
Proof.
  unfold find_by. induction s as [|c s IH]; [done|].
  transitivity (if prefix_by eq_ci p (c :: s) then Some 0
                else S <$> find_pos (prefix_by eq_ci p) (upper s)).
  - rewrite <-(prefix_by_ci_upper p (c :: s)). reflexivity.
  - rewrite IH. reflexivity.
Qed.

#[export] Hint Rewrite find_by_ci_upper prefix_by_ci_upper : pystr_rw.

(** ** Splitting and joining *)

Section SplitBy.
Context {A : Type} (p : A -> bool).

Lemma split_by_go_cur cur s :
  split_by_go p cur s =
  match split_by p s with [] => [] | b :: bs => (reverse cur ++ b) :: bs end.
Proof.
  unfold split_by. revert cur; induction s as [|c s IH]; intros cur; simpl.
  - by rewrite app_nil_r.
  - destruct (p c); simpl; [by rewrite app_nil_r|].
    rewrite IH, (IH [c]). destruct (split_by_go p [] s); [done|].
    by rewrite reverse_cons, <-app_assoc.
Qed.

Lemma split_by_nil : split_by p [] = [[]].
Proof. done. Qed.

Lemma split_by_cons c s :
  split_by p (c :: s) =
  if p c then [] :: split_by p s
  else match split_by p s with [] => [] | b :: bs => (c :: b) :: bs end.
Proof.
  unfold split_by at 1; simpl. destruct (p c); [done|].
  by rewrite split_by_go_cur.
Qed.

Lemma split_by_not_nil s : split_by p s <> [].
Proof.
  unfold split_by. generalize (@nil A) as cur.
  induction s as [|c s IH]; intros cur; simpl; [done|]. by destruct (p c).
Qed.

(** The pieces hold no separator. *)
Lemma split_by_pieces s : Forall (fun b => Forall (fun c => p c = false) b) (split_by p s).
Proof.
  induction s as [|c s IH]; [by repeat constructor|].
  rewrite split_by_cons. destruct (p c) eqn:E; [by constructor|].
  destruct (split_by p s) as [|b bs]; [done|].
  apply Forall_cons in IH as [? ?]. by repeat constructor.
Qed.
End SplitBy.

(** [sep.join(s.split(sep)) == s] for a one-character separator. *)
Lemma join_split_by (c : uchar) s : join [c] (split_by (ceq c) s) = s.
Proof.
  induction s as [|x s IH]; [done|].
  rewrite split_by_cons. destruct (ceq c x) eqn:E.
  - unfold ceq in E. apply bool_decide_eq_true in E. rewrite <-E. pose proof (split_by_not_nil (ceq c) s) as Hne. revert IH Hne.
    destruct (split_by (ceq c) s) as [|b bs]; intros IH Hne; [done|].
    change (join [c] ([] :: b :: bs)) with ([] ++ [c] ++ join [c] (b :: bs)).
    by rewrite IH.
  - pose proof (split_by_not_nil (ceq c) s) as Hne. revert IH Hne.
    destruct (split_by (ceq c) s) as [|b [|b' bs]]; intros IH Hne; [done|simpl in *; by rewrite IH|].
    change (join [c] ((x :: b) :: b' :: bs)) with (x :: (b ++ [c] ++ join [c] (b' :: bs))).
    change (join [c] (b :: b' :: bs)) with (b ++ [c] ++ join [c] (b' :: bs)) in IH.
    by rewrite IH.
Qed.

Lemma join_cons_mjoin (sep : uchar) x bs :
  join [sep] (x :: bs) = x ++ mjoin (map (fun l => sep :: l) bs).
Proof.
  revert x; induction bs as [|b bs IH]; intros x; [by rewrite app_nil_r|].
  change (join [sep] (x :: b :: bs)) with (x ++ [sep] ++ join [sep] (b :: bs)).
  by rewrite IH.
Qed.

(** [s.split(c)] and [re.split(c, s)] agree for a single character. *)
Lemma split_go_char (c : uchar) cur s : split_go [c] 0 cur s = split_by_go (ceq c) cur s.
Proof.
  revert cur; induction s as [|x s IH]; intros cur; [done|]. simpl.
  unfold starts_with; simpl prefix_by. rewrite andb_true_r.
  destruct (ceq c x); simpl; by rewrite IH.
Qed.

Lemma py_split_char (c : uchar) s : py_split [c] s = split_by (ceq c) s.
Proof. apply split_go_char. Qed.

#[export] Hint Rewrite py_split_char @split_by_nil @split_by_cons : pystr_rw.

Lemma span_len_le p s : span_len p s <= length s.
Proof. induction s; simpl; [lia|]. case_match; simpl; lia. Qed.

Lemma span_len_app p s u :
  span_len p s < length s -> span_len p (s ++ u) = span_len p s.
Proof.
  induction s as [|c s IH]; simpl; [lia|].
  case_match; [|done]. intros. f_equal. apply IH. lia.
Qed.


(** ** Letters under [re.IGNORECASE] *)

Definition ci_letter (c : uchar) : bool := is_upper c || is_lower c.

Lemma is_lower_to_lower c : is_lower (to_lower c) = ci_letter c.
Proof.
  destruct c as [a|]; [|done].
  destruct a as [[] [] [] [] [] [] [] []]; vm_compute; reflexivity.
Qed.

Lemma eq_ci_letter c d : eq_ci c d = true -> ci_letter c = true -> ci_letter d = true.
Proof.
  unfold eq_ci. case_bool_decide as E; [|done]. intros _.
  by rewrite <-!is_lower_to_lower, E.
Qed.

Lemma letter_not_space c : ci_letter c = true -> is_space c = false.
Proof.
  destruct c as [a|]; [|done].
  destruct a as [[] [] [] [] [] [] [] []]; vm_compute; congruence.
Qed.

Lemma letter_not_nl c : ci_letter c = true -> c <> nl.
Proof. intros H ->. done. Qed.

Lemma eq_ci_trans a b c : eq_ci a b = true -> eq_ci b c = true -> eq_ci a c = true.
Proof. unfold eq_ci. rewrite !bool_decide_eq_true. congruence. Qed.

Lemma prefix_by_ci_trans p q s :
  prefix_by eq_ci p q = true -> prefix_by eq_ci q s = true -> prefix_by eq_ci p s = true.
Proof.
  revert q s; induction p as [|a p IH]; intros [|b q] [|c s]; simpl; try done.
  rewrite !andb_true_iff. intros [? ?] [? ?]. split; [by eapply eq_ci_trans|eauto].
Qed.

(** A text that starts, up to case, with a word of letters keeps that
    start in its first line and after [strip]. *)
Lemma prefix_letters_chars p s :
  prefix_by eq_ci p s = true -> forallb ci_letter p = true ->
  exists u w, s = u ++ w /\ length u = length p /\ prefix_by eq_ci p u = true /\
              forallb ci_letter u = true.
Proof.
  revert s; induction p as [|a p IH]; intros s Hp Hl.
  - by exists [], s.
  - destruct s as [|c s]; [done|]. simpl in Hp, Hl.
    apply andb_true_iff in Hp as [Hac Hp]. apply andb_true_iff in Hl as [Ha Hl].
    destruct (IH s Hp Hl) as (u & w & -> & Hlen & Hu & Hul).
    exists (c :: u), w. simpl. rewrite Hlen, Hac, Hu, Hul.
    by rewrite (eq_ci_letter a c Hac Ha).
Qed.

(** Splitting at a class of non-letters keeps a leading word of letters
    in the first piece. *)
Lemma split_letters (p : uchar -> bool) u w :
  (forall c, ci_letter c = true -> p c = false) -> forallb ci_letter u = true ->
  exists l0 rest, split_by p (u ++ w) = (u ++ l0) :: rest.
Proof.
  intros Hp. induction u as [|c u IH]; intros Hu.
  - destruct (split_by p w) as [|l0 rest] eqn:E.
    + by destruct (split_by_not_nil p w).
    + by exists l0, rest.
  - simpl in Hu. apply andb_true_iff in Hu as [Hc Hu].
    destruct (IH Hu) as (l0 & rest & E). exists l0, rest. simpl.
    by rewrite split_by_cons, E, Hp.
Qed.

Lemma ceq_nl_letter c : ci_letter c = true -> ceq nl c = false.
Proof. intros Hc. unfold ceq. apply bool_decide_false. intros <-. done. Qed.

Lemma lstrip_app_l u w : lstrip u <> [] -> lstrip (u ++ w) = lstrip u ++ w.
Proof.
  induction u as [|c u IH]; simpl; [done|]. destruct (is_space c); [apply IH|done].
Qed.

Lemma lstrip_app_r u w : lstrip u = [] -> lstrip (u ++ w) = lstrip w.
Proof.
  induction u as [|c u IH]; simpl; [done|]. destruct (is_space c); [apply IH|done].
Qed.

Lemma lstrip_letters u : forallb ci_letter u = true -> u <> [] -> lstrip u = u.
Proof.
  destruct u as [|c u]; [done|]. simpl. intros H _. apply andb_true_iff in H as [Hc _].
  by rewrite letter_not_space.
Qed.

Lemma strip_letters_prefix u w :
  forallb ci_letter u = true -> u <> [] -> exists w', strip (u ++ w) = u ++ w'.
Proof.
  intros Hu Hne. unfold strip, rstrip.
  assert (lstrip u = u) as Hl by (by apply lstrip_letters).
  rewrite (lstrip_app_l u w) by (by rewrite Hl). rewrite Hl, reverse_app.
  assert (lstrip (reverse u) = reverse u) as Hr.
  { destruct u as [|c u] using rev_ind; [done|]. rewrite reverse_snoc. simpl.
    rewrite forallb_app in Hu. apply andb_true_iff in Hu as [_ Hc]. simpl in Hc.
    rewrite andb_true_r in Hc. by rewrite letter_not_space. }
  destruct (decide (lstrip (reverse w) = [])) as [E|E].
  - rewrite lstrip_app_r, Hr, reverse_involutive by done. exists []. by rewrite app_nil_r.
  - rewrite lstrip_app_l, reverse_app, reverse_involutive by done. by eexists.
Qed.

(** ** Loops that append to a list *)

(** A loop whose body only appends computes the concatenation of what
    each element contributes. *)
Lemma fold_left_append {A B} (f : list B -> A -> list B) (out : A -> list B) :
  (forall acc y, f acc y = acc ++ out y) ->
  forall l acc, fold_left f l acc = acc ++ flat_map out l.
Proof.
  intros Hf l. induction l as [|y l IH]; intros acc; simpl; [by rewrite app_nil_r|].
  by rewrite IH, Hf, app_assoc.
Qed.

(** An invariant of the accumulator of a loop over [l]. *)
Lemma fold_left_invariant {A B} (P : B -> Prop) (f : B -> A -> B) l acc :
  (forall acc y, In y l -> P acc -> P (f acc y)) -> P acc -> P (fold_left f l acc).
Proof.
  revert acc; induction l as [|y l IH]; intros acc Hf Hacc; simpl; [done|].
  apply IH; [intros; apply Hf; [simpl; by right|done]|]. apply Hf; [simpl; by left|done].
Qed.

Lemma search_ci_prefix alts a s :
  In a alts -> prefix_by eq_ci a s = true -> search_ci alts s = true.
Proof.
  intros Ha Hp. apply existsb_exists. exists a. split; [done|].
  apply bool_decide_eq_true. unfold find_by. destruct s; simpl; rewrite Hp; done.
Qed.

(** ** Occurrences that cannot cross a character

    When [x] is not a character of [p], no occurrence of [p] covers [x]:
    [s.count(p)] over [a + x + b] is the count over [a] plus the count over
    [b]. *)

Lemma starts_with_cut p a x b :
  x ∉ p -> starts_with p (a ++ x :: b) = true ->
  starts_with p a = true /\ length p <= length a.
Proof.
  unfold starts_with. revert a; induction p as [|y p IH]; intros a Hx; simpl; [split; [done|lia]|].
  destruct a as [|c a]; simpl; rewrite andb_true_iff.
  - intros [Hc _]. unfold ceq in Hc. apply bool_decide_eq_true in Hc. subst. clear IH. set_solver.
  - intros [Hc H]. assert (x ∉ p) as Hx' by (clear IH; set_solver).
    destruct (IH a Hx' H) as [H1 H2]. rewrite Hc, H1. split; [done|lia].
Qed.

Lemma count_go_cut p k a x b :
  p <> [] -> x ∉ p -> k <= length a ->
  count_go p k (a ++ x :: b) = count_go p k a + count_go p 0 b.
Proof.
  intros Hp Hx. revert k; induction a as [|c a IH]; intros k Hk; simpl.
  - assert (k = 0) as -> by (simpl in Hk; lia). destruct (starts_with p (x :: b)) eqn:E; [|done].
    apply (starts_with_cut p []) in E as [_ ?]; [|done]. destruct p; simpl in *; [done|lia].
  - destruct k as [|k]; [|apply IH; simpl in Hk; lia].
    destruct (starts_with p (c :: a ++ x :: b)) eqn:E.
    + apply (starts_with_cut p (c :: a)) in E as [-> ?]; [|done]. rewrite IH by (simpl in *; lia). lia.
    + destruct (starts_with p (c :: a)) eqn:E'; [|by apply IH; lia].
      pose proof (prefix_by_app _ _ _ (x :: b) E') as E2. simpl in E2. unfold starts_with in E. by rewrite E2 in E.
Qed.

Lemma count_sub_cut p a x b :
  p <> [] -> x ∉ p -> count_sub p (a ++ x :: b) = count_sub p a + count_sub p b.
Proof. intros. apply count_go_cut; [done|done|lia]. Qed.

(** The condition of a cut between [a] and [b]: the last character of [a]
    or the first character of [b] is not a character of [p]. *)
Definition head_safe (p b : text) : bool :=
  match b with x :: _ => bool_decide (x ∉ p) | [] => true end.
Definition last_safe (p a : text) : bool :=
  match last a with Some x => bool_decide (x ∉ p) | None => true end.
Definition safe_cut (p a b : text) : bool := head_safe p b || last_safe p a.

Lemma count_sub_app p a b :
  p <> [] -> safe_cut p a b = true -> count_sub p (a ++ b) = count_sub p a + count_sub p b.
Proof.
  intros Hp. unfold safe_cut, head_safe, last_safe. rewrite orb_true_iff. intros [Hb|Ha].
  - destruct b as [|x b]; [rewrite app_nil_r; unfold count_sub; simpl; lia|].
    apply bool_decide_eq_true in Hb. rewrite count_sub_cut by done.
    rewrite <-(app_nil_l (x :: b)), count_sub_cut by done. done.
  - destruct a as [|c a] using rev_ind; [done|]. clear IHa.
    rewrite last_snoc in Ha. apply bool_decide_eq_true in Ha.
    replace ((a ++ [c]) ++ b) with (a ++ c :: b) by (by rewrite <-app_assoc). rewrite !count_sub_cut by done. unfold count_sub. simpl. lia.
Qed.

(** [p] does not occur in [s.lower()]. *)
Definition free_of (p s : text) : Prop := count_sub p (lower s) = 0.

Lemma free_of_app p a b :
  p <> [] -> safe_cut p (lower a) (lower b) = true ->
  free_of p a -> free_of p b -> free_of p (a ++ b).
Proof. unfold free_of, lower. intros. rewrite map_app, count_sub_app by done. lia. Qed.

(** Split a goal [free_of p (a ++ b)] at every concatenation whose cut is
    safe on the side that is a literal. *)
Ltac free_split :=
  repeat (apply free_of_app;
          [done| apply orb_true_intro; first [left; reflexivity | right; reflexivity] | |]).

(** ** The last piece of [str.split]

    For a separator whose first character occurs nowhere else in it (as in
    ["Answer:"]), an occurrence found by the scan never overlaps a later
    occurrence, so the last piece of [s.split(sep)] is the text after the
    last occurrence. *)

Lemma split_go_not_nil sep k cur s : split_go sep k cur s <> [].
Proof. revert k cur; induction s; intros [|k] cur; simpl; try case_match; done. Qed.

Lemma split_go_skip sep u cur s : split_go sep (length u) cur (u ++ s) = split_go sep 0 cur s.
Proof. induction u; [done|]. simpl. apply IHu. Qed.

Lemma split_go_no_sep sep cur s :
  contains sep s = false -> split_go sep 0 cur s = [reverse cur ++ s].
Proof.
  unfold contains, find_sub, find_by. revert cur; induction s as [|c s IH]; intros cur H; simpl.
  - by rewrite app_nil_r.
  - simpl in H. destruct (prefix_by ceq sep (c :: s)) eqn:E; [done|]. unfold starts_with. rewrite E.
    rewrite IH; [by rewrite reverse_cons, <-app_assoc|]. by destruct (find_pos _ s).
Qed.

Lemma prefix_by_ceq_lookup p a y z :
  prefix_by ceq p (a ++ y :: z) = true -> length a < length p -> p !! length a = Some y.
Proof.
  revert p; induction a as [|c a IH]; intros [|q p]; simpl; try lia; rewrite andb_true_iff.
  - unfold ceq. rewrite bool_decide_eq_true. by intros [-> _].
  - intros [_ H] ?. apply IH; [done|lia].
Qed.

Lemma starts_with_refl p s : starts_with p (p ++ s) = true.
Proof. unfold starts_with, ceq. induction p; simpl; [done|]. by rewrite bool_decide_eq_true_2. Qed.

Lemma split_go_last_sep y t k cur a b :
  y ∉ t -> k <= length a ->
  last (split_go (y :: t) k cur (a ++ y :: t ++ b)) = last (split_go (y :: t) 0 [] b).
Proof.
  intros Hy. revert k cur; induction a as [|c a IH]; intros k cur Hk.
  - assert (k = 0) as -> by (simpl in Hk; lia). cbn [app split_go].
    rewrite (starts_with_refl (y :: t) b : starts_with (y :: t) (y :: t ++ b) = true), last_cons. simpl. rewrite Nat.sub_0_r, split_go_skip.
    destruct (last (split_go _ 0 [] b)) eqn:E; [done|]. apply last_None in E. by apply split_go_not_nil in E.
  - cbn [app split_go]. destruct k as [|k]; [|apply IH; simpl in Hk; lia].
    destruct (starts_with (y :: t) (c :: a ++ y :: t ++ b)) eqn:E; [|apply IH; lia].
    assert (length (y :: t) <= length (c :: a)).
    { destruct (decide (length (y :: t) <= length (c :: a))) as [|Hlt]; [done|exfalso].
      apply (prefix_by_ceq_lookup _ (c :: a)) in E; [|lia]. simpl in E.
      apply Hy. by eapply list_elem_of_lookup_2. }
    rewrite last_cons, IH by (simpl in *; lia).
    destruct (last (split_go _ 0 [] b)) eqn:E2; [done|].
    apply last_None in E2. by apply split_go_not_nil in E2.
Qed.

Lemma py_split_last_sep y t a b :
  y ∉ t -> contains (y :: t) b = false ->
  last (py_split (y :: t) (a ++ (y :: t) ++ b)) = Some b.
Proof.
  intros Hy Hb. unfold py_split. change ((y :: t) ++ b) with (y :: t ++ b). rewrite split_go_last_sep by (done || lia).
  by rewrite split_go_no_sep.
Qed.

Lemma lower_app a b : lower (a ++ b) = lower a ++ lower b.
Proof. apply map_app. Qed.

Lemma head_safe_app p a b : a <> [] -> head_safe p (a ++ b) = head_safe p a.
Proof. by destruct a. Qed.

Lemma free_of_nil p : free_of p [].
Proof. done. Qed.

(** [sep.join(l)] has no occurrence of [p] when neither [sep] nor any
    element has one and [sep] begins and ends with a character that is
    not in [p]. *)
Lemma free_of_join p sep l :
  p <> [] -> sep <> [] -> head_safe p (lower sep) = true -> last_safe p (lower sep) = true ->
  free_of p sep -> Forall (free_of p) l -> free_of p (join sep l).
Proof.
  intros Hp Hsep Hh Hl Hs Hxs. induction Hxs as [|x l Hx Hxs IH]; [apply free_of_nil|].
  destruct l as [|y l]; [done|]. change (free_of p (x ++ sep ++ join sep (y :: l))).
  assert (lower sep <> []) by (by destruct sep).
  apply free_of_app; [done| |done|].
  - unfold safe_cut. by rewrite lower_app, head_safe_app, Hh.
  - apply free_of_app; [done|unfold safe_cut; by rewrite Hl, orb_true_r|done|done].
Qed.

Lemma contains_mid p a b : contains p (a ++ p ++ b) = true.
Proof.
  unfold contains, find_sub, find_by. apply bool_decide_eq_true.
  apply (find_pos_complete _ _ (length a)); [rewrite !length_app; lia|].
  rewrite drop_app_length. apply starts_with_refl.
Qed.

Lemma mjoin_cons {A} (x : list A) (l : list (list A)) : mjoin (x :: l) = x ++ mjoin l.
Proof. done. Qed.


(** ** Matches that cannot cross a character

    For a pattern whose match at a position never looks past a character
    [x] with [cutb x] (the digits of [20\d{2}] exclude every non-digit),
    [re.findall] over [a + b] is the matches in [a] followed by those in
    [b], when the cut between them falls on such a character. *)
Section FindallCut.
Context (m : text -> option nat) (cutb : uchar -> bool).
Hypothesis m_local : forall x a b, cutb x = true -> m (a ++ x :: b) = m a.
Hypothesis m_len : forall a n, m a = Some n -> 0 < n <= length a.

Lemma findall_go_cut k a x b :
  cutb x = true -> k <= length a ->
  findall_go m k (a ++ x :: b) = findall_go m k a ++ findall_go m 0 b.
Proof.
  intros Hx. revert k; induction a as [|c a IH]; intros k Hk; cbn [app findall_go].
  - assert (k = 0) as -> by (simpl in Hk; lia).
    rewrite <-(app_nil_l (x :: b)), m_local by done.
    destruct (m []) as [n|] eqn:E; [apply m_len in E; simpl in E; lia|done].
  - destruct k as [|k]; [|apply IH; simpl in Hk; lia].
    change (c :: a ++ x :: b) with ((c :: a) ++ x :: b). rewrite (m_local x (c :: a) b Hx). destruct (m (c :: a)) as [n|] eqn:E; [|by apply IH; lia].
    apply m_len in E. rewrite IH by (simpl in *; lia). rewrite take_app_le by lia. done.
Qed.

Lemma findall_go_head y b : cutb y = true -> findall_go m 0 (y :: b) = findall_go m 0 b.
Proof. intros Hy. by rewrite <-(app_nil_l (y :: b)), findall_go_cut by (done || simpl; lia). Qed.

(** The cut between [a] and [b] falls on a cut character. *)
Definition fcut (a b : text) : bool :=
  match b with y :: _ => cutb y | [] => true end || match last a with Some x => cutb x | None => true end.

Lemma findall_app a b : fcut a b = true -> findall m (a ++ b) = findall m a ++ findall m b.
Proof.
  unfold fcut, findall. rewrite orb_true_iff. intros [Hb|Ha].
  - destruct b as [|y b]; [by rewrite !app_nil_r|].
    by rewrite findall_go_cut, findall_go_head by (done || lia).
  - destruct a as [|c a] using rev_ind; [done|]. clear IHa. rewrite last_snoc in Ha.
    replace ((a ++ [c]) ++ b) with (a ++ c :: b) by (by rewrite <-app_assoc).
    rewrite !findall_go_cut by (done || lia). simpl. by rewrite app_nil_r.
Qed.

Lemma findall_cuts a s b :
  s <> [] -> Forall (fun c => cutb c = true) s -> findall m (a ++ s ++ b) = findall m a ++ findall m b.
Proof.
  unfold findall. revert a; induction s as [|x s IH]; intros a Hs Hc; [done|]. inv Hc.
  change (a ++ (x :: s) ++ b) with (a ++ x :: s ++ b). rewrite findall_go_cut by (done || lia). f_equal.
  destruct s as [|y s]; [done|]. by rewrite <-(app_nil_l (_ ++ b)), IH.
Qed.

Lemma findall_join sep l :
  sep <> [] -> Forall (fun c => cutb c = true) sep ->
  findall m (join sep l) = mjoin (map (findall m) l).
Proof.
  intros Hs Hc. induction l as [|x l IH]; [done|]. destruct l as [|y l]; [simpl; by rewrite app_nil_r|].
  change (findall m (x ++ sep ++ join sep (y :: l)) = findall m x ++ mjoin (map (findall m) (y :: l))).
  by rewrite findall_cuts, IH.
Qed.
End FindallCut.

(** Every match [re.findall] returns is a substring of the text. *)
Lemma findall_go_sub m k s w : In w (findall_go m k s) -> exists a b, s = a ++ w ++ b.
Proof.
  revert k; induction s as [|c s IH]; intros k; cbn [findall_go]; [done|].
  destruct k as [|k]; [destruct (m (c :: s)) as [n|]|].
  - intros [<-|H]; [exists [], (drop n (c :: s)); by rewrite take_drop|].
    destruct (IH _ H) as (a & b & ->). by exists (c :: a), b.
  - intros H. destruct (IH _ H) as (a & b & ->). by exists (c :: a), b.
  - intros H. destruct (IH _ H) as (a & b & ->). by exists (c :: a), b.
Qed.

(** The last group of a concatenation whose groups after [e] are empty. *)
Lemma last_mjoin_map {A B} (f : A -> list B) P e Q y :
  last (f e) = Some y -> Forall (fun s => f s = []) Q -> last (mjoin (map f (P ++ e :: Q))) = Some y.
Proof.
  intros He HQ. rewrite map_app, join_app. cbn [map]. rewrite mjoin_cons.
  assert (mjoin (map f Q) = []) as -> by (apply join_nil, Forall_fmap; eapply Forall_impl; [exact HQ|done]).
  by rewrite app_nil_r, last_app, He.
Qed.
