(* ===== verification/Segmenter.v ===== *)
(** * The section segmenter

    [ResumeProcessor._extract_section] (src/app/services/resume_processor.py,
    lines 257-272): the first header name, in the caller's order, that
    occurs in the upper-cased text (under [re.IGNORECASE]) starts the
    section; the section ends before the next line that looks like an
    all-caps header ([\n[A-Z]{2,}\s*[:\n]], searched in the original text
    after the name) or at the end of the text.  The theorems: the section
    is empty exactly when no name occurs, otherwise it is the slice of the
    text that starts at the first occurrence of the first occurring name
    and contains no header after the name; segmenting a section again
    gives it back. *)

From S2P Require Import Prelude.

Module Segmenter.

(** ** The header pattern [\n[A-Z]{2,}\s*[:\n]] *)

(** [\s*[:\n]] at the head of [s]: some whitespace, then a colon or a
    newline.  A newline is itself whitespace, so backtracking into [\s*]
    succeeds exactly when the scan meets [:] or [\n] before a non-space. *)
Fixpoint ws_then_colon_or_nl (s : text) : bool :=
  match s with
  | [] => false
  | c :: s' => ceq c (Asc ":"%char) || ceq c nl || (is_space c && ws_then_colon_or_nl s')
  end.

(** [[A-Z]{2,}\s*[:\n]]: the greedy run of capitals cannot give back a
    letter, since the character after it would then be a capital, which
    neither [\s] nor [[:\n]] matches. *)
Definition caps_line_tail (s : text) : bool :=
  let k := span_len is_upper s in
  (2 <=? k) && ws_then_colon_or_nl (drop k s).

Definition header_at (s : text) : bool :=
  match s with
  | c :: s' => ceq c nl && caps_line_tail s'
  | [] => false
  end.

(** [re.search(r"\n[A-Z]{2,}\s*[:\n]", s).start()] *)
Definition next_section (s : text) : option nat := find_pos header_at s.

(** ** [_extract_section] *)

(** [for section_name in section_names]: the pattern
    [{section_name}[:\s]*(.*?)(?=...|$)] with [re.DOTALL] matches as soon
    as the name does (the lazy group may run to the end of the text), so
    its [start()] is the first case-insensitive occurrence of the name in
    [text_upper].  The names the callers pass are letters and spaces, which
    are literal in a pattern. *)
Fixpoint extract_section_go (t tu : text) (names : list text) : text :=
  match names with
  | [] => []
  | n :: ns =>
      match find_by eq_ci n tu with
      | Some start_pos =>
          match next_section (drop (start_pos + length n) t) with
          | Some q => take (length n + q) (drop start_pos t)
          | None => drop start_pos t
          end
      | None => extract_section_go t tu ns
      end
  end.

Definition extract_section (t : text) (names : list text) : text :=
  extract_section_go t (upper t) names.

(** The section that starts with name [n] found at [p]. *)
Definition section_at (t n : text) (p : nat) : text :=
  match next_section (drop (p + length n) t) with
  | Some q => take (length n + q) (drop p t)
  | None => drop p t
  end.

(** ** Lemmas *)

Lemma ws_then_colon_or_nl_app s u :
  ws_then_colon_or_nl s = true -> ws_then_colon_or_nl (s ++ u) = true.
Proof.
  induction s as [|c s IH]; simpl; [done|].
  rewrite !orb_true_iff, !andb_true_iff. intuition auto.
Qed.

Lemma ws_then_colon_or_nl_nonempty s : ws_then_colon_or_nl s = true -> s <> [].
Proof. by destruct s. Qed.

Lemma caps_line_tail_app s u :
  caps_line_tail s = true -> caps_line_tail (s ++ u) = true.
Proof.
  unfold caps_line_tail. rewrite !andb_true_iff. intros [Hk Hw].
  assert (span_len is_upper s < length s).
  { pose proof (span_len_le is_upper s).
    destruct (decide (span_len is_upper s = length s)) as [E|]; [|lia].
    rewrite E, drop_all in Hw. done. }
  rewrite span_len_app by done. split; [done|].
  rewrite drop_app_le by lia. by apply ws_then_colon_or_nl_app.
Qed.

Lemma header_at_stable : prefix_stable header_at.
Proof.
  intros [|c s] u; simpl; [done|].
  rewrite !andb_true_iff. intros [? ?]. split; [done|]. by apply caps_line_tail_app.
Qed.

Lemma next_section_take s q :
  next_section s = Some q -> next_section (take q s) = None.
Proof. apply find_pos_take_None; [apply header_at_stable|done]. Qed.

Lemma next_section_Some s q : next_section s = Some q -> q <= length s.
Proof. intros H. by apply find_pos_Some in H as [? _]. Qed.

Lemma extract_section_cons t n ns :
  extract_section t (n :: ns) =
  match find_by eq_ci n t with
  | Some p => section_at t n p
  | None => extract_section t ns
  end.
Proof. unfold extract_section; simpl. by rewrite find_by_ci_upper. Qed.

Lemma extract_section_nil t : extract_section t [] = [].
Proof. done. Qed.

(** Every section is a slice [t[a:a+k]] of the text. *)
Lemma extract_section_slice t names :
  exists a k, extract_section t names = take k (drop a t).
Proof.
  induction names as [|n ns IH].
  - exists 0, 0. done.
  - rewrite extract_section_cons. destruct (find_by eq_ci n t) as [p|]; [|done].
    unfold section_at. destruct (next_section _) as [q|].
    + by exists p, (length n + q).
    + exists p, (length (drop p t)). by rewrite take_ge.
Qed.

(** A name found at [p] is a case-insensitive prefix of the text there. *)
Lemma find_by_prefix eqc n t p :
  find_by eqc n t = Some p -> prefix_by eqc n (drop p t) = true /\ p + length n <= length t.
Proof.
  unfold find_by. intros H. apply find_pos_Some in H as (Hp & HP & _).
  split; [done|]. apply prefix_by_length in HP. rewrite length_drop in HP. lia.
Qed.

(** The section found for [n] at [p] starts with [n] and re-segments to
    itself. *)
Lemma section_at_prefix t n p :
  prefix_by eq_ci n (drop p t) = true -> prefix_by eq_ci n (section_at t n p) = true.
Proof.
  intros H. unfold section_at. destruct (next_section _); [|done].
  apply prefix_by_take; [done|lia].
Qed.

Lemma section_at_tail t n p :
  drop (length n) (section_at t n p) =
  match next_section (drop (p + length n) t) with
  | Some q => take q (drop (p + length n) t)
  | None => drop (p + length n) t
  end.
Proof.
  unfold section_at. destruct (next_section _) as [q|].
  - rewrite skipn_firstn_comm, drop_drop. f_equal. lia.
  - by rewrite drop_drop.
Qed.

Lemma section_at_no_header t n p :
  next_section (drop (length n) (section_at t n p)) = None.
Proof.
  rewrite section_at_tail. destruct (next_section (drop (p + length n) t)) eqn:E; [|done].
  by apply next_section_take.
Qed.

Lemma find_by_ci_slice n t a k :
  find_by eq_ci n t = None -> find_by eq_ci n (take k (drop a t)) = None.
Proof.
  intros Hn. destruct (find_by eq_ci n (take k (drop a t))) eqn:E; [|done].
  destruct (find_pos_slice _ t a k n0 (prefix_by_stable eq_ci n) E) as (j & Hj & _).
  unfold find_by in Hn. congruence.
Qed.

Lemma find_pos_here (P : text -> bool) s : P s = true -> find_pos P s = Some 0.
Proof. intros H. destruct s; simpl; by rewrite H. Qed.

Lemma section_at_resegment t n p :
  prefix_by eq_ci n (drop p t) = true -> section_at (section_at t n p) n 0 = section_at t n p.
Proof.
  intros _. unfold section_at at 1. simpl.
  by rewrite (section_at_no_header t n p).
Qed.

Lemma extract_section_app_absent t pre names :
  Forall (fun m => find_by eq_ci m t = None) pre ->
  extract_section t (pre ++ names) = extract_section t names.
Proof.
  induction 1 as [|m pre Hm _ IH]; [done|].
  simpl. rewrite extract_section_cons, Hm. done.
Qed.

(** A non-empty section starts, up to case, with one of the names. *)
Lemma extract_section_starts t names :
  extract_section t names = [] \/
  exists n, In n names /\ prefix_by eq_ci n (extract_section t names) = true.
Proof.
  induction names as [|n ns IH]; [by left|].
  rewrite !extract_section_cons. destruct (find_by eq_ci n t) as [p|] eqn:Hn.
  - right. exists n. split; [by left|]. apply section_at_prefix.
    by apply find_by_prefix in Hn as [? _].
  - destruct IH as [IH|(m & Hm & Hp)]; [by left|right]. exists m. split; [by right|done].
Qed.

(** The first line of a non-empty section whose names are words of
    letters starts, up to case, with one of the names, and keeps it after
    [strip]. *)
Lemma section_first_line t names :
  extract_section t names <> [] ->
  Forall (fun n => n <> [] /\ forallb ci_letter n = true) names ->
  exists n u l0 rest w', In n names /\
    split_by (ceq nl) (extract_section t names) = (u ++ l0) :: rest /\
    strip (u ++ l0) = u ++ w' /\ prefix_by eq_ci n u = true /\ length u = length n /\
    forallb ci_letter u = true.
Proof.
  intros Hne Hnames.
  destruct (extract_section_starts t names) as [|(n & Hn & Hp)]; [done|].
  eapply Forall_forall in Hnames as [Hn0 Hl]; [|by apply list_elem_of_In].
  destruct (prefix_letters_chars _ _ Hp Hl) as (u & r & Hs & Hlen & Hu & Hul).
  rewrite Hs. destruct (split_letters (ceq nl) u r ceq_nl_letter Hul) as (l0 & rest & Hsplit).
  assert (u <> []) as Hune by (intros ->; destruct n; simpl in *; [done|lia]).
  destruct (strip_letters_prefix u l0 Hul Hune) as (w' & Hstrip).
  by exists n, u, l0, rest, w'.
Qed.

(** ** Theorems *)

(** C5: when some header name occurs in the text (case-insensitively) and
    all the names before it in the caller's list do not, the section is
    [t[p:p+len(n)+q]] for the first occurrence [p] of that name [n] and the
    first header position [q] after it (or runs to the end of the text); it
    starts with the name and holds no further header line. *)
Theorem extract_section_found t pre n post p :
  Forall (fun m => find_by eq_ci m t = None) pre ->
  find_by eq_ci n t = Some p ->
  extract_section t (pre ++ n :: post) = section_at t n p /\
  prefix_by eq_ci n (section_at t n p) = true /\
  next_section (drop (length n) (section_at t n p)) = None.
Proof.
  intros Hpre Hn.
  rewrite extract_section_app_absent, extract_section_cons, Hn by done.
  apply find_by_prefix in Hn as [Hpref _].
  split_and!; [done| |apply section_at_no_header].
  by apply section_at_prefix.
Qed.

(** C15: when no header name occurs, the section is the empty string. *)
Theorem extract_section_absent t names :
  Forall (fun m => find_by eq_ci m t = None) names -> extract_section t names = [].
Proof.
  intros H. rewrite <-(app_nil_r names), extract_section_app_absent by done. done.
Qed.

(** C4: segmentation is idempotent: segmenting a section with the same
    header names gives the section back (spec, section 8). *)
Theorem extract_section_idem t names :
  extract_section (extract_section t names) names = extract_section t names.
Proof.
  induction names as [|n ns IH]; [done|].
  rewrite (extract_section_cons t). destruct (find_by eq_ci n t) as [p|] eqn:Hn.
  - apply find_by_prefix in Hn as [Hpref _].
    rewrite extract_section_cons.
    unfold find_by; rewrite (find_pos_here _ _ (section_at_prefix t n p Hpref)).
    by apply section_at_resegment.
  - rewrite extract_section_cons.
    destruct (extract_section_slice t ns) as (a & k & Hs).
    rewrite Hs, find_by_ci_slice by done. by rewrite <-Hs.
Qed.

(** A resume with a skills header in a sentence of the summary and a
    later all-caps section. *)
Definition sample_resume : text :=
  lines ["Jane Doe"; "Engineer with strong skills in Python"; "EDUCATION"; "BSc, 2018"; "SKILLS: Go"].

Lemma extract_section_found_witness :
  Forall (fun m => find_by eq_ci m sample_resume = None) [‹"HOBBIES"›] /\
  find_by eq_ci ‹"EDUCATION"› sample_resume = Some 47 /\
  (extract_section sample_resume ([‹"HOBBIES"›] ++ ‹"EDUCATION"› :: [‹"SKILLS"›]) =
     section_at sample_resume ‹"EDUCATION"› 47 /\
   prefix_by eq_ci ‹"EDUCATION"› (section_at sample_resume ‹"EDUCATION"› 47) = true /\
   next_section (drop (length ‹"EDUCATION"›) (section_at sample_resume ‹"EDUCATION"› 47)) = None).
Proof.
  split; [repeat constructor; vm_compute; reflexivity|].
  split; [vm_compute; reflexivity|].
  apply (extract_section_found sample_resume [‹"HOBBIES"›] ‹"EDUCATION"› [‹"SKILLS"›] 47).
  - repeat constructor; vm_compute; reflexivity.
  - vm_compute; reflexivity.
Defined.

Lemma extract_section_absent_witness :
  Forall (fun m => find_by eq_ci m sample_resume = None) [‹"HOBBIES"›; ‹"PROJECTS"›] /\
  extract_section sample_resume [‹"HOBBIES"›; ‹"PROJECTS"›] = [].
Proof.
  split; [repeat constructor; vm_compute; reflexivity|].
  apply extract_section_absent. repeat constructor; vm_compute; reflexivity.
Defined.

End Segmenter.
