(* ===== verification/Accumulate.v ===== *)
(** * Blank-line-delimited record accumulation

    [_extract_education], [_extract_experience] and [_extract_projects]
    (src/app/services/resume_processor.py, lines 81-110, 119-152, 221-242)
    share one loop: each line is stripped; a blank line appends the current
    dict to the output if it is non-empty and starts a new one; any other
    line updates the current dict; at the end a non-empty current dict is
    appended.  The loop is modelled once, [accumulate], over the per-line
    update of each extractor.  The theorems: the loop computes the
    block-wise specification [records_spec] (cut the lines at blank lines,
    fold each block into a dict, keep the non-empty dicts); a key written
    first-writer-wins holds the value of the first line of the block that
    writes it; a key that accumulates bullet lines holds them joined by
    spaces; the keys of every record are among the keys the update writes. *)

From S2P Require Import Prelude.

Local Set Warnings "-clear-no-such-hyp".

Module Accumulate.

(** A value of a record dict: a [str] or [None]. *)
Inductive pyval := PStr (s : text) | PNone.

#[export] Instance pyval_eq_dec : EqDecision pyval.
Proof. solve_decision. Defined.

(** The [{}] dicts of the extractors, keyed by their literal key names. *)
Abbreviation pydict := (gmap string pyval).

(** [if d:] *)
Definition dict_truthy (d : pydict) : bool := negb (bool_decide (d = ∅)).

(** [line.strip()] is empty. *)
Definition blank (l : text) : bool := bool_decide (strip l = []).

(** [v + s] on a value known to be a [str].  [None + str] raises
    [TypeError] in Python; no extractor reaches it, because the keys that
    are appended to only ever hold strings (see [Experience] and
    [Projects]). *)
Definition py_add (v : pyval) (s : text) : pyval :=
  match v with PStr d => PStr (d ++ s) | PNone => PNone end.

(** [if k not in d: d[k] = v], under a guard [b] of the caller. *)
Definition set_once_if (b : bool) (k : string) (v : pyval) (d : pydict) : pydict :=
  if b then match d !! k with Some _ => d | None => <[k := v]> d end else d.

(** [if k not in d: d[k] = line] [else: d[k] += " " + line] *)
Definition set_or_append (k : string) (line : text) (d : pydict) : pydict :=
  match d !! k with
  | None => <[k := PStr line]> d
  | Some v => <[k := py_add v (sp :: line)]> d
  end.

(** What a first-writer-wins key holds after a line that would write [o]. *)
Definition wonce (o : option pyval) (cur : option pyval) : option pyval :=
  match cur with Some v => Some v | None => o end.

(** What an appended key holds after a line. *)
Definition appended (is_bullet : bool) (line : text) (cur : option pyval) : option pyval :=
  if is_bullet then Some (match cur with None => PStr line | Some v => py_add v (sp :: line) end)
  else cur.

Lemma lookup_set_once_if b k v d j :
  set_once_if b k v d !! j =
  if decide (j = k) then wonce (if b then Some v else None) (d !! k) else d !! j.
Proof.
  unfold set_once_if, wonce. destruct b; [|case_decide; subst; [by destruct (d !! k)|done]].
  destruct (d !! k) eqn:E; case_decide; subst; try done.
  - by rewrite lookup_insert_eq.
  - by rewrite lookup_insert_ne.
Qed.

Lemma lookup_set_or_append k line d j :
  set_or_append k line d !! j = if decide (j = k) then appended true line (d !! k) else d !! j.
Proof.
  unfold set_or_append, appended. case_decide; subst.
  - destruct (d !! k); by rewrite lookup_insert_eq.
  - destruct (d !! k); by rewrite lookup_insert_ne.
Qed.

(** [d[k] = v] when a value is supplied. *)
Definition opt_insert (k : string) (o : option pyval) (d : pydict) : pydict :=
  match o with Some v => <[k := v]> d | None => d end.

Lemma lookup_opt_insert k o d j :
  opt_insert k o d !! j = if decide (j = k) then from_option Some (d !! k) o else d !! j.
Proof.
  unfold opt_insert. destruct o; case_decide; subst; simpl; try done.
  - by rewrite lookup_insert_eq.
  - by rewrite lookup_insert_ne.
Qed.

(** The first value a block supplies comes from its first line that
    supplies one. *)
Lemma head_omap_first {A B} (f : A -> option B) pre x post v :
  Forall (fun y => f y = None) pre -> f x = Some v -> head (omap f (pre ++ x :: post)) = Some v.
Proof.
  intros Hpre Hx. induction Hpre as [|y pre Hy _ IH]; simpl.
  - by rewrite Hx.
  - rewrite Hy. exact IH.
Qed.

Lemma dict_truthy_lookup (d : pydict) k v : d !! k = Some v -> dict_truthy d = true.
Proof. intros H. unfold dict_truthy. case_bool_decide as E; [|done]. by rewrite E in H. Qed.

Lemma from_option_Some_None {A} (o : option A) : from_option Some None o = o.
Proof. by destruct o. Qed.

#[export] Hint Rewrite lookup_set_once_if lookup_set_or_append lookup_opt_insert : pystr_rw.

(** Close the goals left by case analysis on keys and rewriting with the
    lookup lemmas: literal keys are distinct, [wonce] of [None] is the
    identity. *)
Ltac solve_keys :=
  repeat (case_decide; subst; try discriminate);
  unfold wonce in *; repeat case_match; simplify_eq/=; try done.

(** [line.startswith(("•", "-", "*"))] *)
Definition starts_bullet (line : text) : bool :=
  starts_with [Bullet] line || starts_with ‹"-"› line || starts_with ‹"*"› line.

Section Loop.
Variable upd : pydict -> text -> pydict.

(** [for line in lines: line = line.strip(); if not line: ...] *)
Fixpoint accumulate (cur : pydict) (ls : list text) : list pydict :=
  match ls with
  | [] => if dict_truthy cur then [cur] else []
  | l :: ls' =>
      let line := strip l in
      if bool_decide (line = []) then
        if dict_truthy cur then cur :: accumulate ∅ ls' else accumulate cur ls'
      else accumulate (upd cur line) ls'
  end.

(** ** Specification: one dict per block of non-blank lines *)
Definition block_record (b : list text) : pydict := foldl upd ∅ (map strip b).

Definition records_spec (ls : list text) : list pydict :=
  List.filter dict_truthy (map block_record (split_by blank ls)).

Lemma dict_truthy_false d : dict_truthy d = false -> d = ∅.
Proof. unfold dict_truthy. by case_bool_decide. Qed.

(** C3: the extraction loop, started from any current record [cur],
    emits the non-empty records of the blocks of blank-line-separated
    lines, in order: the first block continues [cur], every later block
    starts from the empty dict, and the record of the last block is
    flushed at the end of the input. *)
Theorem accumulate_blocks cur ls :
  accumulate cur ls =
  match split_by blank ls with
  | [] => []
  | b :: bs => List.filter dict_truthy (foldl upd cur (map strip b) :: map block_record bs)
  end.
Proof.
  revert cur; induction ls as [|l ls IH]; intros cur; simpl.
  - by destruct (dict_truthy cur).
  - rewrite split_by_cons. unfold blank at 1.
    case_bool_decide as Hb.
    + assert (accumulate ∅ ls = List.filter dict_truthy (map block_record (split_by blank ls))) as E.
      { rewrite IH. pose proof (split_by_not_nil blank ls).
        by destruct (split_by blank ls). }
      simpl. destruct (dict_truthy cur) eqn:Ht; [by rewrite E|].
      apply dict_truthy_false in Ht as ->. done.
    + rewrite IH. by destruct (split_by blank ls).
Qed.

(** From the empty dict, the loop computes the block-wise
    specification [records_spec]. *)
Lemma accumulate_refines ls : accumulate ∅ ls = records_spec ls.
Proof.
  rewrite accumulate_blocks. unfold records_spec.
  pose proof (split_by_not_nil blank ls). by destruct (split_by blank ls).
Qed.

Lemma records_spec_truthy ls : Forall (fun d => dict_truthy d = true) (records_spec ls).
Proof. apply Forall_forall. intros d Hd%list_elem_of_In. by apply filter_In in Hd as [_ ?]. Qed.

Lemma records_spec_elem d ls :
  In d (records_spec ls) -> exists b, In b (split_by blank ls) /\ d = block_record b.
Proof.
  unfold records_spec. intros Hd. apply filter_In in Hd as [Hd _].
  apply in_map_iff in Hd as (b & <- & Hb). by exists b.
Qed.

(** ** Keys written first-writer-wins *)
Section FirstWriter.
Variable k : string.
(** What a line writes to [k] when [k] is absent. *)
Variable val : text -> option pyval.
Hypothesis upd_wonce : forall cur line, upd cur line !! k = wonce (val line) (cur !! k).

Lemma foldl_first_writer cur lines :
  foldl upd cur lines !! k =
  match cur !! k with Some v => Some v | None => head (omap val lines) end.
Proof.
  revert cur; induction lines as [|l lines IH]; intros cur; simpl.
  - by destruct (cur !! k).
  - rewrite IH, upd_wonce. unfold wonce. by destruct (cur !! k), (val l).
Qed.

Lemma block_record_first_writer b :
  block_record b !! k = head (omap val (map strip b)).
Proof. unfold block_record. by rewrite foldl_first_writer, lookup_empty. Qed.
End FirstWriter.

(** ** Keys that accumulate bullet lines *)
Section Appender.
Variable k : string.
Variable bullet : text -> bool.
Hypothesis upd_appended : forall cur line, upd cur line !! k = appended (bullet line) line (cur !! k).

Lemma foldl_appender_str cur lines d :
  cur !! k = Some (PStr d) ->
  foldl upd cur lines !! k = Some (PStr (d ++ mjoin (map (fun l => sp :: l) (List.filter bullet lines)))).
Proof.
  revert cur d; induction lines as [|l lines IH]; intros cur d Hd; simpl.
  - by rewrite app_nil_r.
  - assert (upd cur l !! k = Some (PStr (if bullet l then d ++ [sp] ++ l else d))) as Hl.
    { rewrite upd_appended, Hd. unfold appended. by destruct (bullet l). }
    rewrite (IH _ _ Hl). destruct (bullet l); simpl; [|done]. by rewrite <-!app_assoc.
Qed.

Lemma foldl_appender cur lines :
  cur !! k = None ->
  foldl upd cur lines !! k =
  match List.filter bullet lines with
  | [] => None
  | b :: bs => Some (PStr (join [sp] (b :: bs)))
  end.
Proof.
  revert cur; induction lines as [|l lines IH]; intros cur Hk; simpl; [done|].
  pose proof (upd_appended cur l) as Hl. rewrite Hk in Hl. unfold appended in Hl.
  destruct (bullet l).
  - by rewrite (foldl_appender_str _ _ _ Hl), <-join_cons_mjoin.
  - by apply IH.
Qed.

Lemma block_record_appender b :
  block_record b !! k =
  match List.filter bullet (map strip b) with
  | [] => None
  | l :: ls => Some (PStr (join [sp] (l :: ls)))
  end.
Proof. unfold block_record. by rewrite foldl_appender. Qed.
End Appender.

(** ** The keys of the records *)
Section Keys.
Variable K : gset string.
Hypothesis upd_dom : forall cur line, dom (upd cur line) ⊆ dom cur ∪ K.

Lemma foldl_dom cur lines : dom (foldl upd cur lines) ⊆ dom cur ∪ K.
Proof.
  revert cur; induction lines as [|l lines IH]; intros cur; simpl; [set_solver|].
  specialize (IH (upd cur l)). specialize (upd_dom cur l). set_solver.
Qed.

Lemma records_spec_dom ls : Forall (fun d => dom d ⊆ K) (records_spec ls).
Proof.
  apply Forall_forall. intros d Hd%list_elem_of_In. apply records_spec_elem in Hd as (b & _ & ->).
  unfold block_record. pose proof (foldl_dom ∅ (map strip b)). set_solver.
Qed.
End Keys.

(** A property of every binding that each update preserves holds in every
    record: the type of the dicts the loop builds. *)
Section Typed.
Variable R : string -> pyval -> Prop.
Hypothesis upd_typed : forall cur line, map_Forall R cur -> map_Forall R (upd cur line).

Lemma foldl_typed cur lines : map_Forall R cur -> map_Forall R (foldl upd cur lines).
Proof. revert cur; induction lines as [|l lines IH]; intros cur H; simpl; [done|auto]. Qed.

Lemma records_spec_typed ls : Forall (map_Forall R) (records_spec ls).
Proof.
  apply Forall_forall. intros d Hd%list_elem_of_In. apply records_spec_elem in Hd as (b & _ & ->).
  apply foldl_typed, map_Forall_empty.
Qed.
End Typed.
End Loop.

End Accumulate.
