(* ===== verification/Education.v ===== *)
(** * The education extractor

    [ResumeProcessor._extract_education] (src/app/services/resume_processor.py,
    lines 71-112): the EDUCATION/ACADEMIC/QUALIFICATION section is cut into
    lines and accumulated (see [Accumulate]) with the per-line update
    [edu_update]: the whole line becomes the degree if it matches a degree
    pattern, the institution if it names a university, college, institute
    or school, and the first and last four-digit tokens of a line with a
    date become the start and end dates, each key first-writer-wins; at
    most five records are kept.  The theorems: each record is the
    declarative record [edu_record_spec] of its block.  (On the spec's
    scenario of section 8 the line "MIT" is itself taken as a section
    header, so the record holds the degree only.) *)

From S2P Require Import Prelude Segmenter Accumulate.

Module Education.
Import Segmenter Accumulate.

(** [degree_patterns] (lines 74-77), two [(?i)] alternations of literals
    ([\.] is a literal dot). *)
Definition degree_patterns : list (list text) :=
  [ [‹"Bachelor"›; ‹"B.S."›; ‹"B.A."›; ‹"Master"›; ‹"M.S."›; ‹"M.A."›; ‹"MBA"›;
     ‹"PhD"›; ‹"Ph.D."›; ‹"Doctorate"›];
    [‹"Bachelor of"›; ‹"Master of"›; ‹"Doctor of"›] ].

(** [r"(?i)(university|college|institute|school)"] *)
Definition institution_alts : list text :=
  [‹"university"›; ‹"college"›; ‹"institute"›; ‹"school"›].

Definition edu_names : list text := [‹"EDUCATION"›; ‹"ACADEMIC"›; ‹"QUALIFICATION"›].

(** [for pattern in degree_patterns: if re.search(pattern, line):
    if "degree" not in current_edu: current_edu["degree"] = line; break] *)
Fixpoint degree_step (pats : list (list text)) (cur : pydict) (line : text) : pydict :=
  match pats with
  | [] => cur
  | p :: ps =>
      if search_ci p line then set_once_if true "degree" (PStr line) cur
      else degree_step ps cur line
  end.

(** The body of the loop for a non-blank stripped line (lines 92-107). *)
Definition edu_update (cur : pydict) (line : text) : pydict :=
  let cur := degree_step degree_patterns cur line in
  let cur := set_once_if (search_ci institution_alts line) "institution" (PStr line) cur in
  let dates := findall match_d4 line in
  if bool_decide (dates <> []) then
    let cur := set_once_if (0 <? length dates) "end_date" (PStr (default [] (last dates))) cur in
    set_once_if (0 <? length dates) "start_date" (PStr (default [] (head dates))) cur
  else cur.

Definition extract_education (t : text) : list pydict :=
  let edu_section := extract_section t edu_names in
  take 5 (accumulate edu_update ∅ (py_split [nl] edu_section)).

(** ** The declarative record of a block *)

Definition degree_val (line : text) : option pyval :=
  if existsb (fun p => search_ci p line) degree_patterns then Some (PStr line) else None.
Definition institution_val (line : text) : option pyval :=
  if search_ci institution_alts line then Some (PStr line) else None.
Definition edu_start_val (line : text) : option pyval := PStr <$> head (findall match_d4 line).
Definition edu_end_val (line : text) : option pyval := PStr <$> last (findall match_d4 line).

(** Each key holds the value of the first line of the block that has one. *)
Definition edu_record_spec (b : list text) : pydict :=
  let ls := map strip b in
  opt_insert "degree" (head (omap degree_val ls))
  (opt_insert "institution" (head (omap institution_val ls))
  (opt_insert "end_date" (head (omap edu_end_val ls))
  (opt_insert "start_date" (head (omap edu_start_val ls)) ∅))).

(** The value a line writes to key [k] when [k] is absent. *)
Definition edu_val (k : string) (line : text) : option pyval :=
  if decide (k = "degree") then degree_val line
  else if decide (k = "institution") then institution_val line
  else if decide (k = "end_date") then edu_end_val line
  else if decide (k = "start_date") then edu_start_val line
  else None.

(** ** Lemmas *)

Lemma degree_step_lookup pats cur line k :
  degree_step pats cur line !! k =
  if decide (k = "degree")
  then wonce (if existsb (fun p => search_ci p line) pats then Some (PStr line) else None) (cur !! k)
  else cur !! k.
Proof.
  induction pats as [|p ps IH]; cbn [degree_step existsb].
  - case_decide; [|done]. unfold wonce. by destruct (cur !! k).
  - destruct (search_ci p line); [|done]. rewrite lookup_set_once_if. by solve_keys.
Qed.

(** Every key of [edu_update] is written first-writer-wins. *)
Lemma edu_update_lookup cur line k :
  edu_update cur line !! k = wonce (edu_val k line) (cur !! k).
Proof.
  unfold edu_update, edu_val, degree_val, institution_val, edu_start_val, edu_end_val.
  destruct (findall match_d4 line) as [|d ds].
  - rewrite bool_decide_false by naive_solver.
    rewrite lookup_set_once_if, !degree_step_lookup. solve_keys.
  - rewrite bool_decide_true by done.
    replace (0 <? length (d :: ds)) with true by reflexivity.
    rewrite !lookup_set_once_if, !degree_step_lookup. solve_keys.
    destruct (last (d :: ds)) eqn:E; [done|by apply last_None in E].
Qed.

Lemma block_record_edu b : block_record edu_update b = edu_record_spec b.
Proof.
  apply map_eq. intros k.
  rewrite (block_record_first_writer edu_update k (edu_val k) (fun cur line => edu_update_lookup cur line k)).
  unfold edu_record_spec. rewrite !lookup_opt_insert.
  unfold edu_val. solve_keys; rewrite ?lookup_empty, ?from_option_Some_None; try reflexivity.
  by induction (map strip b).
Qed.

(** The type of an education entry: a field of the [Education] model
    holding a string. *)
Definition edu_fields : list string := ["degree"; "institution"; "start_date"; "end_date"].
Definition edu_typed (k : string) (v : pyval) : Prop := k ∈ edu_fields /\ exists s, v = PStr s.

Lemma edu_update_typed cur line : map_Forall edu_typed cur -> map_Forall edu_typed (edu_update cur line).
Proof.
  intros H k v. rewrite edu_update_lookup. unfold wonce. destruct (cur !! k) eqn:E; [intros [= <-]; by apply H|].
  unfold edu_val, degree_val, institution_val, edu_end_val, edu_start_val, edu_typed.
  intros Hv. repeat case_decide; subst; repeat case_match; simplify_eq/=; (split; [set_solver|]);
    try by eexists. all: apply fmap_Some in Hv as (s & _ & ->); by eexists.
Qed.

Lemma extract_education_typed t : Forall (map_Forall edu_typed) (extract_education t).
Proof.
  unfold extract_education. rewrite py_split_char, accumulate_refines.
  apply Forall_take, records_spec_typed, edu_update_typed.
Qed.

(** ** Theorems *)

(** C1: the education extractor keeps, in order and at most five, the
    non-empty records of the blank-line-separated blocks of the section's
    lines, each the declarative record [edu_record_spec] of its block:
    degree, institution, end and start date are those of the first line
    of the block that supplies one. *)
Theorem extract_education_spec t :
  extract_education t =
  take 5 (List.filter dict_truthy
            (map edu_record_spec (split_by blank (split_by (ceq nl) (extract_section t edu_names))))).
Proof.
  unfold extract_education. rewrite py_split_char, accumulate_refines.
  unfold records_spec. f_equal. f_equal. apply map_ext, block_record_edu.
Qed.

End Education.
