(* ===== verification/Experience.v ===== *)
(** * The experience extractor

    [ResumeProcessor._extract_experience] (src/app/services/resume_processor.py,
    lines 114-154): the EXPERIENCE/WORK/EMPLOYMENT/PROFESSIONAL section is
    accumulated (see [Accumulate]) with [exp_update]: a line with a role
    keyword becomes the title, a line with a company keyword the company,
    the dates of the first dated line ([\d{4}] or [\w+\s+\d{4}]) give the
    start date and, only when the line has two or more dates, the end date
    (a single date writes [None] to [end_date], which blocks every later
    line), and bullet lines ([•], [-], [*] or [N.]) accumulate into the
    description joined by spaces; at most ten records are kept.  The
    theorems: each record is the declarative record [exp_record_spec] of
    its block; the description is always a string; a block whose first
    dated line has one date ends with [end_date = None]. *)

From S2P Require Import Prelude Segmenter Accumulate.

Module Experience.
Import Segmenter Accumulate.

Definition exp_names : list text :=
  [‹"EXPERIENCE"›; ‹"WORK"›; ‹"EMPLOYMENT"›; ‹"PROFESSIONAL"›].

(** [(?i)(engineer|developer|manager|analyst|consultant|specialist|lead|senior|junior)] *)
Definition title_alts : list text :=
  [‹"engineer"›; ‹"developer"›; ‹"manager"›; ‹"analyst"›; ‹"consultant"›;
   ‹"specialist"›; ‹"lead"›; ‹"senior"›; ‹"junior"›].

(** [(?i)(inc\.|ltd\.|corp\.|company|technologies|systems)] *)
Definition company_alts : list text :=
  [‹"inc."›; ‹"ltd."›; ‹"corp."›; ‹"company"›; ‹"technologies"›; ‹"systems"›].

(** [(\d{4}|\w+\s+\d{4})] at the head of a string.  The first alternative
    is tried first.  In the second, the greedy [\w+] and [\s+] cannot give
    back a character: the character after a shorter [\w+] is a word
    character, not a space, and the one after a shorter [\s+] is a space,
    not a digit. *)
Definition match_exp_date (s : text) : option nat :=
  match match_d4 s with
  | Some n => Some n
  | None =>
      let w := span_len is_word s in
      let ws := span_len is_space (drop w s) in
      if (1 <=? w) && (1 <=? ws) && bool_decide (is_Some (match_d4 (drop (w + ws) s)))
      then Some (w + ws + 4) else None
  end.

(** [re.match(r"^\d+\.", line)] *)
Definition numbered (line : text) : bool :=
  let k := span_len is_digit line in (1 <=? k) && starts_with ‹"."› (drop k line).

Definition exp_bullet (line : text) : bool := starts_bullet line || numbered line.

(** The body of the loop for a non-blank stripped line (lines 130-149). *)
Definition exp_update (cur : pydict) (line : text) : pydict :=
  let cur := set_once_if (search_ci title_alts line) "title" (PStr line) cur in
  let cur := set_once_if (search_ci company_alts line) "company" (PStr line) cur in
  let dates := findall match_exp_date line in
  let cur :=
    if bool_decide (dates <> []) then
      let cur := set_once_if true "end_date"
                   (if 1 <? length dates then PStr (default [] (last dates)) else PNone) cur in
      set_once_if true "start_date" (PStr (default [] (head dates))) cur
    else cur in
  if starts_bullet line || numbered line then set_or_append "description" line cur else cur.

Definition extract_experience (t : text) : list pydict :=
  let exp_section := extract_section t exp_names in
  take 10 (accumulate exp_update ∅ (py_split [nl] exp_section)).

(** ** The declarative record of a block *)

Definition title_val (line : text) : option pyval :=
  if search_ci title_alts line then Some (PStr line) else None.
Definition company_val (line : text) : option pyval :=
  if search_ci company_alts line then Some (PStr line) else None.
Definition exp_start_val (line : text) : option pyval := PStr <$> head (findall match_exp_date line).
(** The first dated line decides [end_date]: its last date when it has
    two or more, [None] when it has one. *)
Definition exp_end_val (line : text) : option pyval :=
  match findall match_exp_date line with
  | [] => None
  | [_] => Some PNone
  | ds => PStr <$> last ds
  end.

Definition exp_val (k : string) (line : text) : option pyval :=
  if decide (k = "title") then title_val line
  else if decide (k = "company") then company_val line
  else if decide (k = "end_date") then exp_end_val line
  else if decide (k = "start_date") then exp_start_val line
  else None.

Definition exp_record_spec (b : list text) : pydict :=
  let ls := map strip b in
  opt_insert "title" (head (omap title_val ls))
  (opt_insert "company" (head (omap company_val ls))
  (opt_insert "end_date" (head (omap exp_end_val ls))
  (opt_insert "start_date" (head (omap exp_start_val ls))
  (opt_insert "description"
     (match List.filter exp_bullet ls with
      | [] => None
      | l :: ls' => Some (PStr (join [sp] (l :: ls')))
      end) ∅)))).

(** ** Lemmas *)

Lemma last_cons_Some {A} (x : A) xs : exists y, last (x :: xs) = Some y.
Proof. destruct (last (x :: xs)) eqn:E; [by eexists|by apply last_None in E]. Qed.

(** The description accumulates bullet lines; every other key is written
    first-writer-wins. *)
Lemma exp_update_lookup cur line k :
  exp_update cur line !! k =
  if decide (k = "description") then appended (exp_bullet line) line (cur !! k)
  else wonce (exp_val k line) (cur !! k).
Proof.
  unfold exp_update, exp_bullet, exp_val, title_val, company_val, exp_start_val, exp_end_val.
  destruct (starts_bullet line || numbered line);
    destruct (findall match_exp_date line) as [|d [|d' ds]];
    rewrite ?bool_decide_false, ?bool_decide_true by naive_solver;
    rewrite ?lookup_set_or_append, ?lookup_set_once_if; unfold appended;
    solve_keys; destruct (last_cons_Some d' ds) as [y Hy]; by rewrite Hy.
Qed.

Lemma block_record_exp b : block_record exp_update b = exp_record_spec b.
Proof.
  apply map_eq. intros k. unfold exp_record_spec. rewrite !lookup_opt_insert.
  destruct (decide (k = "description")) as [->|Hk].
  - rewrite (block_record_appender exp_update "description" exp_bullet) by (intros; by rewrite exp_update_lookup).
    solve_keys; rewrite ?lookup_empty; done.
  - rewrite (block_record_first_writer exp_update k (exp_val k))
      by (intros; rewrite exp_update_lookup; by case_decide).
    unfold exp_val. solve_keys; rewrite ?lookup_empty, ?from_option_Some_None; try reflexivity.
    by induction (map strip b).
Qed.

(** ** Theorems *)

(** C2: the experience extractor keeps, in order and at most ten, the
    non-empty records of the blocks of the section's lines, each the
    declarative record [exp_record_spec] of its block: title, company,
    start and end date from the first line that supplies one, and the
    bullet lines joined by single spaces as the description. *)
Theorem extract_experience_spec t :
  extract_experience t =
  take 10 (List.filter dict_truthy
             (map exp_record_spec (split_by blank (split_by (ceq nl) (extract_section t exp_names))))).
Proof.
  unfold extract_experience. rewrite py_split_char, accumulate_refines.
  unfold records_spec. f_equal. f_equal. apply map_ext, block_record_exp.
Qed.

(** C9: in a block whose first dated line has exactly one date, the
    record's [end_date] is [None], whatever dates the later lines of the
    block hold: the code writes [None] into [end_date] for a one-date line
    and never overwrites a key it has written. *)
Theorem exp_single_date_end_none b pre l post d :
  map strip b = pre ++ l :: post ->
  Forall (fun x => findall match_exp_date x = []) pre ->
  findall match_exp_date l = [d] ->
  block_record exp_update b !! "end_date" = Some PNone.
Proof.
  intros Hb Hpre Hl. rewrite block_record_exp. unfold exp_record_spec.
  rewrite !lookup_opt_insert. solve_keys. rewrite Hb.
  rewrite (head_omap_first exp_end_val pre l post PNone); [done| |by unfold exp_end_val; rewrite Hl].
  eapply Forall_impl; [exact Hpre|]. intros x Hx. by unfold exp_end_val; rewrite Hx.
Qed.

Lemma exp_single_date_end_none_witness :
  map strip [‹"Senior Engineer, Acme Inc."›; ‹"  Since 2019"›; ‹"- Led 2020 2021 launch"›] =
    [‹"Senior Engineer, Acme Inc."›] ++ ‹"Since 2019"› :: [‹"- Led 2020 2021 launch"›] /\
  Forall (fun x => findall match_exp_date x = []) [‹"Senior Engineer, Acme Inc."›] /\
  findall match_exp_date ‹"Since 2019"› = [‹"Since 2019"›] /\
  block_record exp_update [‹"Senior Engineer, Acme Inc."›; ‹"  Since 2019"›; ‹"- Led 2020 2021 launch"›]
    !! "end_date" = Some PNone.
Proof.
  split; [vm_compute; reflexivity|]. split; [repeat constructor; vm_compute; reflexivity|].
  split; [vm_compute; reflexivity|].
  apply (exp_single_date_end_none _ [‹"Senior Engineer, Acme Inc."›] ‹"Since 2019"›
           [‹"- Led 2020 2021 launch"›] ‹"Since 2019"›).
  - vm_compute; reflexivity.
  - repeat constructor; vm_compute; reflexivity.
  - vm_compute; reflexivity.
Defined.

End Experience.
