(* ===== verification/Projects.v ===== *)
(** * The projects extractor

    [ResumeProcessor._extract_projects] (src/app/services/resume_processor.py,
    lines 216-244): the PROJECTS/PROJECT section is accumulated (see
    [Accumulate]) with [proj_update]: the first non-blank line shorter than
    100 characters becomes the name, bullet lines accumulate into the
    description; at most ten records are kept.  The theorems: each record
    is the declarative record [proj_record_spec] of its block; the first
    project is always named after the section header itself (a code bug:
    the header line is the first non-blank line of the first block). *)

From S2P Require Import Prelude Segmenter Accumulate.

Module Projects.
Import Segmenter Accumulate.

Definition project_names : list text := [‹"PROJECTS"›; ‹"PROJECT"›].

(** The body of the loop for a non-blank stripped line (lines 232-239). *)
Definition proj_update (cur : pydict) (line : text) : pydict :=
  let cur := set_once_if (length line <? 100) "name" (PStr line) cur in
  if starts_bullet line then set_or_append "description" line cur else cur.

Definition extract_projects (t : text) : list pydict :=
  let project_section := extract_section t project_names in
  let lines := if bool_decide (project_section <> []) then py_split [nl] project_section else [] in
  take 10 (accumulate proj_update ∅ lines).

(** ** The declarative record of a block *)

Definition name_val (line : text) : option pyval :=
  if length line <? 100 then Some (PStr line) else None.

Definition proj_record_spec (b : list text) : pydict :=
  let ls := map strip b in
  opt_insert "name" (head (omap name_val ls))
  (opt_insert "description"
     (match List.filter starts_bullet ls with
      | [] => None
      | l :: ls' => Some (PStr (join [sp] (l :: ls')))
      end) ∅).

(** ** Lemmas *)

Lemma proj_update_lookup cur line k :
  proj_update cur line !! k =
  if decide (k = "description") then appended (starts_bullet line) line (cur !! k)
  else if decide (k = "name") then wonce (name_val line) (cur !! k)
  else cur !! k.
Proof.
  unfold proj_update, name_val, appended.
  destruct (starts_bullet line); rewrite ?lookup_set_or_append, ?lookup_set_once_if; solve_keys.
Qed.

Lemma block_record_proj b : block_record proj_update b = proj_record_spec b.
Proof.
  apply map_eq. intros k. unfold proj_record_spec. rewrite !lookup_opt_insert.
  destruct (decide (k = "description")) as [->|Hk].
  - rewrite (block_record_appender proj_update "description" starts_bullet)
      by (intros; by rewrite proj_update_lookup).
    solve_keys; rewrite ?lookup_empty; done.
  - rewrite (block_record_first_writer proj_update k
               (fun line => if decide (k = "name") then name_val line else None))
      by (intros; rewrite proj_update_lookup; unfold wonce; solve_keys).
    solve_keys; rewrite ?lookup_empty, ?from_option_Some_None; try reflexivity.
    by induction (map strip b).
Qed.

Lemma extract_projects_lines t :
  extract_projects t =
  take 10 (records_spec proj_update (split_by (ceq nl) (extract_section t project_names))).
Proof.
  unfold extract_projects. rewrite <-py_split_char, <-accumulate_refines.
  case_bool_decide as H; [done|]. by rewrite H.
Qed.

(** ** Theorems *)

(** C14: the projects extractor keeps, in order and at most ten, the
    non-empty records of the blocks of the section's lines, each the
    declarative record [proj_record_spec] of its block: the first line
    shorter than 100 characters as the name, the bullet lines joined by
    spaces as the description. *)
Theorem extract_projects_spec t :
  extract_projects t =
  take 10 (List.filter dict_truthy
             (map proj_record_spec (split_by blank (split_by (ceq nl) (extract_section t project_names))))).
Proof.
  rewrite extract_projects_lines. unfold records_spec. f_equal. f_equal.
  apply map_ext, block_record_proj.
Qed.

(** C10: whenever the projects section is found and its first line is
    shorter than 100 characters, the first project record is named after
    that line, which begins with the header word "PROJECT" (in any case):
    the header line is the first non-blank line of the first block, so the
    real name of the first project is never recorded. *)
Theorem first_project_named_header t :
  extract_section t project_names <> [] ->
  length (strip (first_line (extract_section t project_names))) < 100 ->
  exists p ps nm, extract_projects t = p :: ps /\ p !! "name" = Some (PStr nm) /\
                  prefix_by eq_ci ‹"PROJECT"› nm = true.
Proof.
  intros Hne Hlen.
  destruct (section_first_line t project_names) as (n & u & l0 & rest & w' & Hn & Hs & Hst & Hn' & _ & Hul);
    [done|by repeat constructor|].
  assert (prefix_by eq_ci ‹"PROJECT"› u = true) as Hu.
  { eapply prefix_by_ci_trans; [|exact Hn']. destruct Hn as [<-|[<-|[]]]; done. }
  rewrite extract_projects_lines. unfold records_spec. rewrite Hs, split_by_cons.
  unfold first_line in Hlen. rewrite Hs in Hlen. simpl in Hlen. rewrite Hst in Hlen.
  assert (u <> []) as Hune by (intros ->; done).
  unfold blank at 1. rewrite bool_decide_false by (rewrite Hst; by destruct u).
  destruct (split_by blank rest) as [|b bs] eqn:Hb; [by destruct (split_by_not_nil blank rest)|].
  assert (block_record proj_update ((u ++ l0) :: b) !! "name" = Some (PStr (u ++ w'))) as Hname.
  { rewrite block_record_proj. unfold proj_record_spec. rewrite !lookup_opt_insert. simpl. rewrite Hst.
    unfold name_val. rewrite (proj2 (Nat.ltb_lt _ _) Hlen). done. }
  cbn [map List.filter]. rewrite (dict_truthy_lookup _ _ _ Hname). cbn [firstn].
  eexists _, _, _. split_and!; [reflexivity|exact Hname|by apply prefix_by_app].
Qed.

Definition projects_resume : text :=
  lines ["PROJECTS:"; "Resume Parser"; "- Built with FastAPI"; ""; "Chat Bot"].

Lemma first_project_named_header_witness :
  extract_section projects_resume project_names <> [] /\
  length (strip (first_line (extract_section projects_resume project_names))) < 100 /\
  exists p ps nm, extract_projects projects_resume = p :: ps /\ p !! "name" = Some (PStr nm) /\
                  prefix_by eq_ci ‹"PROJECT"› nm = true.
Proof.
  split; [vm_compute; discriminate|]. split; [vm_compute; lia|].
  apply first_project_named_header; [vm_compute; discriminate|vm_compute; lia].
Defined.

End Projects.
