(* ===== verification/Skills.v ===== *)
(** * The list-valued extractors: skills, hobbies, certifications

    [ResumeProcessor._extract_skills] (src/app/services/resume_processor.py,
    lines 156-185): pass 1 adds, in vocabulary order, every keyword of a
    fixed vocabulary that occurs as a whole word (case-insensitively) in the
    SKILLS section, or in the whole text when there is none; pass 2 splits
    every line of the section at [,;•-] and adds each stripped piece of
    length 3 to 49 that is new and does not start with
    "skills"/"technical"/"proficient"; at most 30 are kept.
    [_extract_hobbies] (lines 187-201) keeps every such piece of the
    HOBBIES section (no novelty or label test), at most ten;
    [_extract_certifications] (lines 203-214) keeps every line of the
    CERTIFICATIONS section that names a certificate keyword, stripped, at
    most ten.  The theorems: the skills are duplicate-free and at least
    three characters long (so the spec's round trip, which expects "Go",
    fails); the hobbies respect their cap and length filter; the header
    line of the hobbies and certifications sections is itself returned as
    the first hobby or certification. *)

From S2P Require Import Prelude Segmenter.
Import Segmenter.

(** [re.split(r"[,;•\-]", line)]: the delimiter class of pass 2 and of the
    hobbies. *)
Definition is_delim (c : uchar) : bool :=
  ceq c (Asc ","%char) || ceq c (Asc ";"%char) || ceq c Bullet || ceq c (Asc "-"%char).

(** [len(item) > 2 and len(item) < 50] *)
Definition item_len_ok (item : text) : bool := (2 <? length item) && (length item <? 50).

Lemma delim_letter c : ci_letter c = true -> is_delim c = false.
Proof.
  destruct c as [a|]; [|done].
  destruct a as [[] [] [] [] [] [] [] []]; vm_compute; congruence.
Qed.

Module Skills.

Definition skill_keywords : list text :=
  [‹"Python"›; ‹"Java"›; ‹"JavaScript"›; ‹"SQL"›; ‹"MongoDB"›; ‹"PostgreSQL"›;
   ‹"FastAPI"›; ‹"React"›; ‹"Node.js"›; ‹"Docker"›; ‹"AWS"›; ‹"Git"›; ‹"Linux"›;
   ‹"Machine Learning"›; ‹"Data Science"›; ‹"TensorFlow"›; ‹"PyTorch"›;
   ‹"Pandas"›; ‹"NumPy"›; ‹"scikit-learn"›; ‹"Kubernetes"›; ‹"Redis"›;
   ‹"Elasticsearch"›; ‹"GraphQL"›; ‹"REST API"›; ‹"Microservices"›].

Definition skills_names : list text := [‹"SKILLS"›; ‹"TECHNICAL SKILLS"›; ‹"COMPETENCIES"›].

(** [\b] between a character that is or is not a word character
    ([prev_word]) and the head of [rest] (the end of the string counts as
    a non-word character). *)
Definition boundary (prev_word : bool) (rest : text) : bool :=
  negb (Bool.eqb prev_word (match rest with c :: _ => is_word c | [] => false end)).

(** [re.search(rf"\b{re.escape(k)}\b", s, re.IGNORECASE)]: a
    case-insensitive occurrence of the literal [k] with a word boundary on
    both sides; [prev_word] says whether the character before [s] is a word
    character. *)
Fixpoint search_word_go (k : text) (prev_word : bool) (s : text) : bool :=
  (boundary prev_word s && prefix_by eq_ci k s &&
   boundary (match last (take (length k) s) with Some c => is_word c | None => prev_word end)
            (drop (length k) s))
  || match s with
     | [] => false
     | c :: s' => search_word_go k (is_word c) s'
     end.

Definition search_word (k s : text) : bool := search_word_go k false s.

(** [for skill in skill_keywords: if re.search(...): if skill not in skills:
    skills.append(skill)] *)
Definition pass1_step (text_to_search : text) (skills : list text) (skill : text) : list text :=
  if search_word skill text_to_search then
    if list_mem skill skills then skills else skills ++ [skill]
  else skills.

(** [re.search(r"^(skills|technical|proficient)", item, re.I)] *)
Definition looks_like_label (item : text) : bool :=
  existsb (fun p => prefix_by eq_ci p item) [‹"skills"›; ‹"technical"›; ‹"proficient"›].

(** [item = item.strip(); if len(item) > 2 and len(item) < 50:
    if item not in skills and not re.search(...): skills.append(item)] *)
Definition pass2_step (skills : list text) (raw : text) : list text :=
  let item := strip raw in
  if item_len_ok item then
    if negb (list_mem item skills) && negb (looks_like_label item) then skills ++ [item] else skills
  else skills.

Definition extract_skills (t : text) : list text :=
  let skills_section := extract_section t skills_names in
  let text_to_search := if bool_decide (skills_section <> []) then skills_section else t in
  let skills := fold_left (pass1_step text_to_search) skill_keywords [] in
  let lines := if bool_decide (skills_section <> []) then py_split [nl] skills_section else [] in
  let skills := fold_left (fun sk line => fold_left pass2_step (split_by is_delim line) sk) lines skills in
  take 30 skills.

(** ** Theorems *)

Lemma keywords_long : Forall (fun k => 3 <= length k) skill_keywords.
Proof. repeat constructor; simpl; lia. Qed.

(** Appending an element that is not yet in a duplicate-free list. *)
Lemma NoDup_snoc_fresh (acc : list text) x :
  NoDup acc -> bool_decide (x ∈ acc) = false -> NoDup (acc ++ [x]).
Proof.
  intros H Hx. apply bool_decide_eq_false in Hx. apply NoDup_app.
  split_and!; [done| |apply NoDup_singleton].
  intros y Hy ->%list_elem_of_singleton. done.
Qed.

Lemma pass1_step_nodup s acc k : NoDup acc -> NoDup (pass1_step s acc k).
Proof.
  intros H. unfold pass1_step, list_mem. destruct (search_word k s); [|done].
  destruct (bool_decide (k ∈ acc)) eqn:Hk; [done|]. by apply NoDup_snoc_fresh.
Qed.

Lemma pass2_step_nodup acc raw : NoDup acc -> NoDup (pass2_step acc raw).
Proof.
  intros H. unfold pass2_step, list_mem. destruct (item_len_ok _); [|done].
  destruct (bool_decide (strip raw ∈ acc)) eqn:Hk; simpl; [done|].
  destruct (looks_like_label _); simpl; [done|]. by apply NoDup_snoc_fresh.
Qed.

(** The two passes, each a loop over the accumulated list. *)
Lemma extract_skills_loops t :
  exists s lines, extract_skills t =
    take 30 (fold_left (fun sk line => fold_left pass2_step (split_by is_delim line) sk) lines
               (fold_left (pass1_step s) skill_keywords [])).
Proof. unfold extract_skills. by eexists _, _. Qed.

(** C6: the skills list has no duplicates (both passes add only what is
    not yet in the list, and the truncation to 30 keeps a prefix). *)
Theorem extract_skills_nodup t : NoDup (extract_skills t).
Proof.
  destruct (extract_skills_loops t) as (s & lines & ->).
  eapply sublist_NoDup; [|apply sublist_take].
  apply fold_left_invariant; [|apply fold_left_invariant; [|constructor]].
  - intros acc line _ Hacc. apply fold_left_invariant; [|done].
    intros. by apply pass2_step_nodup.
  - intros. by apply pass1_step_nodup.
Qed.

(** C7: every skill is at least three characters long: the vocabulary
    words are, and pass 2 keeps only pieces of length 3 to 49.  A
    two-letter skill such as "Go" is never extracted. *)
Theorem extract_skills_min_length t : Forall (fun k => 3 <= length k) (extract_skills t).
Proof.
  destruct (extract_skills_loops t) as (s & lines & ->). apply Forall_take.
  apply fold_left_invariant; [|apply fold_left_invariant; [|constructor]].
  - intros acc line _ Hacc. apply fold_left_invariant; [|done].
    intros acc' raw _ H. unfold pass2_step, item_len_ok.
    destruct (2 <? length (strip raw)) eqn:E1; simpl; [|done].
    destruct (length (strip raw) <? 50); [|done]. simpl.
    destruct (negb _ && negb _); [|done]. apply Forall_app. split; [done|].
    constructor; [|done]. apply Nat.ltb_lt in E1. lia.
  - intros acc k Hk H. unfold pass1_step.
    destruct (search_word k _); [|done]. destruct (list_mem k acc); [done|].
    apply Forall_app. split; [done|]. constructor; [|done].
    pose proof keywords_long as HK. eapply Forall_forall in HK; [exact HK|]. by apply list_elem_of_In.
Qed.

End Skills.

Module Hobbies.

Definition hobbies_names : list text := [‹"HOBBIES"›; ‹"INTERESTS"›; ‹"ACTIVITIES"›].

(** [item = item.strip(); if len(item) > 2 and len(item) < 50:
    hobbies.append(item)] *)
Definition hobby_step (hobbies : list text) (raw : text) : list text :=
  let item := strip raw in
  if item_len_ok item then hobbies ++ [item] else hobbies.

Definition extract_hobbies (t : text) : list text :=
  let hobbies_section := extract_section t hobbies_names in
  let hobbies :=
    if bool_decide (hobbies_section <> []) then
      fold_left (fun h line => fold_left hobby_step (split_by is_delim line) h)
                (py_split [nl] hobbies_section) []
    else [] in
  take 10 hobbies.

(** What one piece and one line contribute. *)
Definition hobby_out_item (raw : text) : list text :=
  let item := strip raw in if item_len_ok item then [item] else [].
Definition hobby_out (line : text) : list text := flat_map hobby_out_item (split_by is_delim line).

(** [line.split("\n")[0]] cut at the first delimiter: the first piece. *)
Definition first_item (s : text) : text := default [] (head (split_by is_delim s)).

Lemma extract_hobbies_flat t :
  extract_hobbies t =
  take 10 (if bool_decide (extract_section t hobbies_names <> [])
           then flat_map hobby_out (split_by (ceq nl) (extract_section t hobbies_names)) else []).
Proof.
  unfold extract_hobbies. rewrite py_split_char. case_bool_decide; [|done].
  f_equal. rewrite (fold_left_append _ hobby_out); [done|].
  intros acc line. unfold hobby_out. apply fold_left_append.
  intros acc' raw. unfold hobby_step, hobby_out_item. cbv zeta.
  destruct (item_len_ok (strip raw)); [done|by rewrite app_nil_r].
Qed.

(** C12: whenever the hobbies section is found and the first piece of its
    first line is shorter than 50 characters, the first hobby is that
    piece, which begins with the header name (HOBBIES, INTERESTS or
    ACTIVITIES, in any case): the header line is split like any other
    line and passes the length filter. *)
Theorem first_hobby_is_header t :
  extract_section t hobbies_names <> [] ->
  length (strip (first_item (first_line (extract_section t hobbies_names)))) < 50 ->
  exists h hs n, extract_hobbies t = h :: hs /\ In n hobbies_names /\ prefix_by eq_ci n h = true.
Proof.
  intros Hne Hlen.
  destruct (section_first_line t hobbies_names) as (n & u & l0 & rest & w' & Hn & Hs & _ & Hnu & Hlu & Hul);
    [done|by repeat constructor|].
  destruct (split_letters is_delim u l0 delim_letter Hul) as (x & pieces & Hp).
  assert (u <> []) as Hune by (intros ->; destruct Hn as [<-|[<-|[<-|[]]]]; done).
  destruct (strip_letters_prefix u x Hul Hune) as (x' & Hx).
  unfold first_line, first_item in Hlen. rewrite Hs in Hlen.
  change (default [] (head ((u ++ l0) :: rest))) with (u ++ l0) in Hlen.
  rewrite Hp in Hlen. change (default [] (head ((u ++ x) :: pieces))) with (u ++ x) in Hlen.
  rewrite Hx in Hlen.
  assert (item_len_ok (u ++ x') = true) as Hok.
  { unfold item_len_ok. apply andb_true_iff. rewrite !Nat.ltb_lt. split; [|done].
    rewrite length_app, Hlu. destruct Hn as [<-|[<-|[<-|[]]]]; simpl; lia. }
  rewrite extract_hobbies_flat, bool_decide_true, Hs by done.
  cbn [flat_map]. unfold hobby_out at 1. rewrite Hp. cbn [flat_map].
  unfold hobby_out_item at 1. rewrite Hx, Hok. cbn [app firstn].
  eexists _, _, n. split_and!; [reflexivity|done|by apply prefix_by_app].
Qed.

Lemma first_hobby_is_header_witness :
  extract_section (lines ["Hobbies & Interests"; "Chess, hiking"]) hobbies_names <> [] /\
  length (strip (first_item (first_line
    (extract_section (lines ["Hobbies & Interests"; "Chess, hiking"]) hobbies_names)))) < 50 /\
  exists h hs n, extract_hobbies (lines ["Hobbies & Interests"; "Chess, hiking"]) = h :: hs /\
                 In n hobbies_names /\ prefix_by eq_ci n h = true.
Proof.
  split; [vm_compute; discriminate|]. split; [vm_compute; lia|].
  apply first_hobby_is_header; [vm_compute; discriminate|vm_compute; lia].
Defined.

(** C8: at most ten hobbies are returned, each of three to 49
    characters: the length filter [len(item) > 2 and len(item) < 50]
    applies to the stripped piece that is stored. *)
Theorem extract_hobbies_bounds t :
  length (extract_hobbies t) <= 10 /\
  Forall (fun h => 3 <= length h <= 49) (extract_hobbies t).
Proof.
  rewrite extract_hobbies_flat. split; [rewrite length_take; lia|]. apply Forall_take.
  case_bool_decide; [|constructor]. apply List.Forall_forall. intros h Hh.
  apply in_flat_map in Hh as (line & _ & Hh). apply in_flat_map in Hh as (raw & _ & Hh).
  unfold hobby_out_item, item_len_ok in Hh. destruct (_ && _) eqn:E; [|done].
  destruct Hh as [<-|[]]. apply andb_true_iff in E as [E1 E2]. apply Nat.ltb_lt in E1, E2.
  lia.
Qed.

End Hobbies.

Module Certifications.

Definition cert_names : list text := [‹"CERTIFICATIONS"›; ‹"CERTIFICATES"›; ‹"LICENSES"›].

(** [(?i)(certified|certificate|certification|license|credential)] *)
Definition cert_alts : list text :=
  [‹"certified"›; ‹"certificate"›; ‹"certification"›; ‹"license"›; ‹"credential"›].

(** [if re.search(...): certifications.append(line.strip())]: the test is
    on the line as it is, the stored value is stripped. *)
Definition cert_step (certs : list text) (line : text) : list text :=
  if search_ci cert_alts line then certs ++ [strip line] else certs.

Definition extract_certifications (t : text) : list text :=
  let cert_section := extract_section t cert_names in
  let certs :=
    if bool_decide (cert_section <> []) then fold_left cert_step (py_split [nl] cert_section) []
    else [] in
  take 10 certs.

Definition cert_out (line : text) : list text := if search_ci cert_alts line then [strip line] else [].

Lemma extract_certifications_flat t :
  extract_certifications t =
  take 10 (if bool_decide (extract_section t cert_names <> [])
           then flat_map cert_out (split_by (ceq nl) (extract_section t cert_names)) else []).
Proof.
  unfold extract_certifications. rewrite py_split_char. case_bool_decide; [|done].
  f_equal. rewrite (fold_left_append _ cert_out); [done|]. intros acc line. unfold cert_step, cert_out.
  destruct (search_ci cert_alts line); [done|by rewrite app_nil_r].
Qed.

(** Each header name starts with a certificate keyword. *)
Lemma cert_name_keyword n :
  In n cert_names -> exists a, In a cert_alts /\ prefix_by eq_ci a n = true.
Proof.
  intros [<-|[<-|[<-|[]]]].
  - exists ‹"certification"›. split; [by do 2 right; left|done].
  - exists ‹"certificate"›. split; [by right; left|done].
  - exists ‹"license"›. split; [by do 3 right; left|done].
Qed.

(** C11: whenever the certifications section is found, the first
    certification is its header line (stripped), which begins with the
    header name: "CERTIFICATIONS", "CERTIFICATES" and "LICENSES" contain
    the keywords "certification", "certificate" and "license", so the
    header line passes the keyword test. *)
Theorem first_certification_is_header t :
  extract_section t cert_names <> [] ->
  exists c cs n, extract_certifications t = c :: cs /\ In n cert_names /\ prefix_by eq_ci n c = true.
Proof.
  intros Hne.
  destruct (section_first_line t cert_names) as (n & u & l0 & rest & w' & Hn & Hs & Hst & Hnu & _ & Hul);
    [done|by repeat constructor|].
  destruct (cert_name_keyword n Hn) as (a & Ha & Han).
  assert (search_ci cert_alts (u ++ l0) = true) as Hsearch.
  { apply (search_ci_prefix _ a); [done|]. apply prefix_by_app. by eapply prefix_by_ci_trans. }
  rewrite extract_certifications_flat, bool_decide_true, Hs by done.
  cbn [flat_map]. unfold cert_out at 1. rewrite Hsearch, Hst. cbn [app firstn].
  eexists _, _, n. split_and!; [reflexivity|done|by apply prefix_by_app].
Qed.

Lemma first_certification_is_header_witness :
  extract_section (lines ["Certifications"; "AWS Certified Developer"]) cert_names <> [] /\
  exists c cs n, extract_certifications (lines ["Certifications"; "AWS Certified Developer"]) = c :: cs /\
                 In n cert_names /\ prefix_by eq_ci n c = true.
Proof.
  split; [vm_compute; discriminate|].
  apply first_certification_is_header. vm_compute; discriminate.
Defined.

End Certifications.
