(* ===== verification/Introduction.v ===== *)
(** * The introduction extractor

    [ResumeProcessor._extract_introduction]
    (src/app/services/resume_processor.py, lines 246-255): the first
    paragraph (up to the first blank-line separator "\n\n") of the
    SUMMARY/OBJECTIVE/INTRODUCTION/PROFILE/ABOUT section, cut to 500
    characters; without such a section, the non-blank lines among the
    first five lines of the text, stripped and joined by spaces, cut to 500
    characters.  The theorems: the introduction has at most 500 characters;
    without a section, blank first five lines give an empty introduction
    even when later lines are not blank (the spec says "the first 5
    non-blank lines"). *)

From S2P Require Import Prelude Segmenter.

Module Introduction.
Import Segmenter.

Definition intro_names : list text :=
  [‹"SUMMARY"›; ‹"OBJECTIVE"›; ‹"INTRODUCTION"›; ‹"PROFILE"›; ‹"ABOUT"›].

(** [lines = text.split("\n")[:5]]
    [" ".join([line.strip() for line in lines if line.strip()])[:500]] *)
Definition intro_fallback (t : text) : text :=
  let lines := take 5 (py_split [nl] t) in
  take 500 (join [sp] (map strip (List.filter (fun l => bool_decide (strip l <> [])) lines))).

Definition extract_introduction (t : text) : text :=
  let intro_section := extract_section t intro_names in
  if bool_decide (intro_section <> []) then
    match py_split [nl; nl] intro_section with
    | p :: _ => take 500 p
    | [] => intro_fallback t
    end
  else intro_fallback t.

(** ** Theorems *)

(** C13: without an introduction section, when the first five lines of the
    text are blank the introduction is empty, whatever follows: the code
    takes the first five lines and then drops the blank ones, where the
    spec takes the first five non-blank lines. *)
Theorem intro_fallback_blank_head t :
  extract_section t intro_names = [] ->
  Forall (fun l => strip l = []) (take 5 (split_by (ceq nl) t)) ->
  extract_introduction t = [].
Proof.
  intros Hsec Hblank. unfold extract_introduction.
  rewrite Hsec, bool_decide_false by naive_solver. unfold intro_fallback.
  rewrite py_split_char. induction (take 5 (split_by (ceq nl) t)) as [|l ls IH]; [done|].
  apply Forall_cons in Hblank as [Hl Hls]. simpl. rewrite bool_decide_false by naive_solver.
  by apply IH.
Qed.

Lemma intro_fallback_length t : length (intro_fallback t) <= 500.
Proof. unfold intro_fallback. rewrite length_take. lia. Qed.

(** The introduction is at most 500 characters long. *)
Lemma extract_introduction_length t : length (extract_introduction t) <= 500.
Proof.
  unfold extract_introduction. case_bool_decide; [|apply intro_fallback_length].
  destruct (py_split _ _); [apply intro_fallback_length|]. rewrite length_take. lia.
Qed.

Definition late_name_resume : text := lines [""; ""; " "; ""; ""; "Jane Doe"; "Engineer"].

Lemma intro_fallback_blank_head_witness :
  extract_section late_name_resume intro_names = [] /\
  Forall (fun l => strip l = []) (take 5 (split_by (ceq nl) late_name_resume)) /\
  extract_introduction late_name_resume = [].
Proof.
  split; [vm_compute; reflexivity|]. split; [repeat constructor; vm_compute; reflexivity|].
  apply intro_fallback_blank_head; [vm_compute; reflexivity|repeat constructor; vm_compute; reflexivity].
Defined.

End Introduction.
