(* ===== verification/Processor.v ===== *)
(** * The resume processor: text extraction and record composition

    [ResumeProcessor.extract_text] (src/app/services/resume_processor.py,
    lines 24-42) and [ResumeProcessor.process_resume] (lines 44-69).  The
    PDF and DOCX readers are libraries the code only calls; they are the
    fields of the record [DocReaders] (the page or paragraph texts, or the
    reader's error message).  [process_resume] runs the NER model over at
    most five chunks of 512 characters, catches its errors and never uses
    the entities: [process_resume_ner] records the calls it makes and
    returns the record of [process_resume], which depends on the text
    only.  The theorems: every list of the record respects its cap and the
    introduction its 500 characters; the chunks join back to the text,
    and any fuel from the length of the text on gives the same chunks;
    the NER model reads at most the first 2560 characters. *)

From S2P Require Import Prelude Segmenter Accumulate Education Experience Projects Skills Introduction.

Module Processor.
Import Segmenter Accumulate Education Experience Projects Skills Hobbies Certifications Introduction.

(** The byte content of an uploaded file. *)
Abbreviation bytes := (list Byte.byte).

(** Results of the code's fallible steps: a value, or an exception's
    message. *)
Inductive result (A : Type) := Ok (a : A) | Err (msg : text).
Arguments Ok {A} a.
Arguments Err {A} msg.

(** The document libraries [PyPDF2.PdfReader] and [docx.Document]. *)
Record DocReaders := {
  pdf_pages : bytes -> result (list text);
  docx_paragraphs : bytes -> result (list text);
}.

(** [raise Exception(f"Error extracting text: {str(e)}")] *)
Definition extract_error (msg : text) : text := ‹"Error extracting text: "› ++ msg.

Definition extract_text (R : DocReaders) (file_content : bytes) (file_ext : text) : result text :=
  if bool_decide (file_ext = ‹".pdf"›) then
    match pdf_pages R file_content with
    | Ok pages => Ok (foldl (fun acc page => acc ++ page ++ [nl]) [] pages)
    | Err e => Err (extract_error e)
    end
  else if bool_decide (file_ext = ‹".docx"›) then
    match docx_paragraphs R file_content with
    | Ok paras => Ok (join [nl] paras)
    | Err e => Err (extract_error e)
    end
  else Err (extract_error (‹"Unsupported file type: "› ++ file_ext)).

(** The dict [candidate_data] of lines 56-64. *)
Record candidate_data := {
  cd_education : list pydict;
  cd_experience : list pydict;
  cd_skills : list text;
  cd_hobbies : list text;
  cd_certifications : list text;
  cd_projects : list pydict;
  cd_introduction : text;
}.

Definition process_resume (resume_text : text) : candidate_data := {|
  cd_education := extract_education resume_text;
  cd_experience := extract_experience resume_text;
  cd_skills := extract_skills resume_text;
  cd_hobbies := extract_hobbies resume_text;
  cd_certifications := extract_certifications resume_text;
  cd_projects := extract_projects resume_text;
  cd_introduction := extract_introduction resume_text;
|}.

(** ** The NER pass (lines 46-54)

    [process_resume] runs the NER model, when it loaded, over the first
    five chunks of 512 characters, inside a [try] that ends the loop at
    the first exception and prints it; the entities are never used.  The
    model records the calls made to the NER model, the only effect of the
    pass. *)

(** [[resume_text[i:i+512] for i in range(0, len(resume_text), 512)]]:
    each step consumes up to 512 characters, so [length t] steps are
    enough. *)
Fixpoint chunks_go (fuel : nat) (t : text) : list text :=
  match fuel, t with
  | O, _ | _, [] => []
  | S f, _ => take 512 t :: chunks_go f (drop 512 t)
  end.
Definition ner_chunks (t : text) : list text := chunks_go (length t) t.

Section Ner.
Context {entity : Type}.

(** [for chunk in chunks[:5]: entities.extend(self.ner_model(chunk))]:
    the chunks passed to the model and the entities gathered. *)
Fixpoint run_ner (ner : text -> result (list entity)) (chunks : list text)
  (calls : list text) (entities : list entity) : list text * list entity :=
  match chunks with
  | [] => (calls, entities)
  | c :: cs =>
      match ner c with
      | Ok es => run_ner ner cs (calls ++ [c]) (entities ++ es)
      | Err _ => (calls ++ [c], entities)
      end
  end.

(** [self.ner_model] is [None] when the pipeline failed to load
    ([__init__], lines 11-22). *)
Definition ner_pass (ner_model : option (text -> result (list entity))) (t : text)
  : list text * list entity :=
  match ner_model with
  | Some m => run_ner m (take 5 (ner_chunks t)) [] []
  | None => ([], [])
  end.

(** [process_resume] with its NER pass: the calls to the model and the
    record. *)
Definition process_resume_ner (ner_model : option (text -> result (list entity))) (t : text)
  : list text * candidate_data :=
  ((ner_pass ner_model t).1, process_resume t).

End Ner.

(** ** Lemmas *)

Lemma chunks_go_spec f t :
  length t <= f ->
  mjoin (chunks_go f t) = t /\ Forall (fun c => c <> [] /\ length c <= 512) (chunks_go f t).
Proof.
  revert t; induction f as [|f IH]; intros [|x t] Hf; cbn [chunks_go]; try (simpl in Hf; lia); try done.
  destruct (IH (drop 512 (x :: t))) as [H1 H2]; [rewrite length_drop; simpl in *; lia|].
  split; [by rewrite mjoin_cons, H1, take_drop|]. constructor; [|done].
  split; [done|rewrite length_take; lia].
Qed.

Lemma chunks_go_take f n t :
  length t <= f -> mjoin (take n (chunks_go f t)) = take (512 * n) t.
Proof.
  revert n t; induction f as [|f IH]; intros n [|x t] Hf; cbn [chunks_go];
    try (simpl in Hf; lia); try (by rewrite !take_nil).
  destruct n as [|n]; [done|]. cbn [take]. rewrite mjoin_cons.
  rewrite IH by (rewrite length_drop; simpl in *; lia).
  replace (512 * S n) with (512 + 512 * n) by lia. rewrite <-(take_take_drop (x :: t) 512). reflexivity.
Qed.

Lemma run_ner_calls {entity} (ner : text -> result (list entity)) cs calls es :
  exists k, (run_ner ner cs calls es).1 = calls ++ take k cs.
Proof.
  revert calls es; induction cs as [|c cs IH]; intros calls es; simpl.
  - exists 0. by rewrite app_nil_r.
  - destruct (ner c).
    + destruct (IH (calls ++ [c]) (es ++ a)) as [k ->]. exists (S k). by rewrite <-app_assoc.
    + by exists 1.
Qed.

(** ** Theorems *)

(** The record respects the caps of the code for any text: at most
    5 education, 10 experience, 30 skills, 10 hobbies, 10 certifications
    and 10 project entries, and an introduction of at most 500
    characters. *)
Theorem process_resume_bounds t :
  let c := process_resume t in
  length (cd_education c) <= 5 /\ length (cd_experience c) <= 10 /\
  length (cd_skills c) <= 30 /\ length (cd_hobbies c) <= 10 /\
  length (cd_certifications c) <= 10 /\ length (cd_projects c) <= 10 /\
  length (cd_introduction c) <= 500.
Proof.
  simpl. unfold extract_education, extract_experience, extract_skills,
    extract_hobbies, extract_certifications, extract_projects.
  rewrite !length_take. split_and!; try lia. apply extract_introduction_length.
Qed.

(** C35: the NER chunks cut the text into consecutive pieces of 1 to 512
    characters that join back to the whole text. *)
Theorem ner_chunks_roundtrip t :
  mjoin (ner_chunks t) = t /\ Forall (fun c => c <> [] /\ length c <= 512) (ner_chunks t).
Proof. by apply chunks_go_spec. Qed.

Lemma chunks_go_fuel_eq f f' t :
  length t <= f -> length t <= f' -> chunks_go f t = chunks_go f' t.
Proof.
  revert f' t; induction f as [|f IH]; intros [|f'] [|x t] Hf Hf'; simpl in Hf, Hf'; try lia; try done.
  cbn [chunks_go]. f_equal. apply IH; rewrite length_drop; simpl; lia.
Qed.

(** C34: the NER pass calls the model on at most five chunks of at most
    512 characters, which together are a prefix of the first 2560
    characters of the text, whatever the model does. *)
Theorem ner_pass_reads_prefix {entity} (ner_model : option (text -> result (list entity))) t :
  let calls := (ner_pass ner_model t).1 in
  length calls <= 5 /\ Forall (fun c => length c <= 512) calls /\ mjoin calls `prefix_of` take 2560 t.
Proof.
  destruct ner_model as [m|]; simpl; [|split_and!; [lia|constructor|apply prefix_nil]].
  destruct (run_ner_calls m (take 5 (ner_chunks t)) [] []) as [k ->]. simpl.
  rewrite take_take. split_and!.
  - rewrite length_take. lia.
  - destruct (chunks_go_spec (length t) t) as [_ H]; [done|].
    apply Forall_take. eapply Forall_impl; [exact H|]. naive_solver.
  - unfold ner_chunks. rewrite chunks_go_take by done.
    replace (take (512 * min k 5) t) with (take (512 * min k 5) (take 2560 t)); [apply prefix_take|].
    rewrite take_take. f_equal. lia.
Qed.

End Processor.
