(* ===== verification/Candidate.v ===== *)
(** * The candidate data model

    The pydantic models of src/app/models/candidate.py as records:
    [Education], [Experience], [Candidate] and [CandidateSummary], with
    the optional fields as [option text] and the projects as the
    extractor's dicts.  [Candidate( **doc)] over a stored document is
    [candidate_of_doc]: pydantic builds [Education( **d)] and
    [Experience( **d)] from the extractor's dicts, a [None] value or a
    missing key gives [None], keys the model does not declare are
    ignored.  The stored document [candidate_doc] is the dict that
    [MongoDBService.save_candidate] writes (mongodb_service.py, lines
    19-28).  The theorem: the education entries of the extractor have the
    type of the [Education] model, and [Education( **d)] keeps them
    whole. *)

From S2P Require Import Prelude Accumulate Education.

Module Model.
Import Accumulate.

(** [class Education(BaseModel)] *)
Record Education := {
  ed_degree : option text;
  ed_institution : option text;
  ed_field : option text;
  ed_start_date : option text;
  ed_end_date : option text;
  ed_gpa : option text;
}.

(** [class Experience(BaseModel)] *)
Record Experience := {
  ex_title : option text;
  ex_company : option text;
  ex_start_date : option text;
  ex_end_date : option text;
  ex_description : option text;
  ex_location : option text;
}.

(** [class Candidate(BaseModel)] *)
Record Candidate := {
  candidate_id : text;
  education : list Education;
  experience : list Experience;
  skills : list text;
  hobbies : list text;
  certifications : list text;
  projects : list pydict;
  introduction : text;
}.

(** [class CandidateSummary(BaseModel)] *)
Record CandidateSummary := {
  cs_candidate_id : text;
  cs_introduction : text;
  cs_skills : list text;
  experience_count : nat;
  education_count : nat;
}.

(** The document of the store: the dict [candidate_doc] of
    [save_candidate], one field per key. *)
Record candidate_doc := {
  doc_candidate_id : text;
  doc_education : list pydict;
  doc_experience : list pydict;
  doc_skills : list text;
  doc_hobbies : list text;
  doc_certifications : list text;
  doc_projects : list pydict;
  doc_introduction : text;
}.

(** An [Optional[str]] field read from an extractor dict. *)
Definition str_field (d : pydict) (k : string) : option text :=
  match d !! k with Some (PStr s) => Some s | _ => None end.

(** [Education( **d)] *)
Definition education_of_dict (d : pydict) : Education := {|
  ed_degree := str_field d "degree";
  ed_institution := str_field d "institution";
  ed_field := str_field d "field";
  ed_start_date := str_field d "start_date";
  ed_end_date := str_field d "end_date";
  ed_gpa := str_field d "gpa";
|}.

(** [Experience( **d)] *)
Definition experience_of_dict (d : pydict) : Experience := {|
  ex_title := str_field d "title";
  ex_company := str_field d "company";
  ex_start_date := str_field d "start_date";
  ex_end_date := str_field d "end_date";
  ex_description := str_field d "description";
  ex_location := str_field d "location";
|}.

(** [Candidate( **doc)] (mongodb_service.py, line 50) *)
Definition candidate_of_doc (doc : candidate_doc) : Candidate := {|
  candidate_id := doc_candidate_id doc;
  education := map education_of_dict (doc_education doc);
  experience := map experience_of_dict (doc_experience doc);
  skills := doc_skills doc;
  hobbies := doc_hobbies doc;
  certifications := doc_certifications doc;
  projects := doc_projects doc;
  introduction := doc_introduction doc;
|}.

(** ** Education entries through the model *)

(** The dict of an [Education] with its [None] fields left out
    ([model_dump(exclude_none=True)]). *)
Definition dict_of_education (e : Education) : pydict :=
  opt_insert "degree" (PStr <$> ed_degree e) (opt_insert "institution" (PStr <$> ed_institution e)
  (opt_insert "field" (PStr <$> ed_field e) (opt_insert "start_date" (PStr <$> ed_start_date e)
  (opt_insert "end_date" (PStr <$> ed_end_date e) (opt_insert "gpa" (PStr <$> ed_gpa e) ∅))))).

Lemma str_field_typed d k :
  map_Forall Education.edu_typed d -> PStr <$> str_field d k = d !! k.
Proof.
  intros H. unfold str_field. destruct (d !! k) as [v|] eqn:E; [|done].
  destruct (H k v E) as [_ [s ->]]. done.
Qed.

(** C33: every education entry the extractor returns has the type of the
    [Education] model: its keys are fields of the model and its values are
    strings, so that [Education( **d)] keeps all of it: dumping the model
    gives the entry back. *)
Theorem extract_education_fits_model t :
  Forall (fun d => map_Forall Education.edu_typed d /\ dict_of_education (education_of_dict d) = d)
         (Education.extract_education t).
Proof.
  eapply Forall_impl; [apply Education.extract_education_typed|]. intros d Hd. split; [done|].
  apply map_eq. intros k. unfold dict_of_education, education_of_dict. cbn [ed_degree ed_institution
    ed_field ed_start_date ed_end_date ed_gpa]. rewrite !lookup_opt_insert, !str_field_typed by done.
  repeat case_decide; simplify_eq/=; rewrite ?lookup_empty; try by destruct (d !! _).
  destruct (d !! k) as [v|] eqn:E; [|done].
  destruct (Hd k v E) as [Hk _]. unfold Education.edu_fields in Hk. set_solver.
Qed.

End Model.
