(* ===== verification/QA.v ===== *)
(** * The answer composer

    [QAService] (src/app/services/qa_service.py).  [answer_question]
    (lines 20-72) formats the candidate into a context text
    ([_format_candidate_context], lines 122-154), asks a remote
    extractive-QA model, falls back on a remote generative model
    ([_fallback_answer], lines 74-101) and finally on local keyword rules
    ([_rule_based_answer], lines 103-120).  The two remote models are the
    fields of the record [Remote]: any function from the request to a
    [response], which is a transport failure (timeout, connection error)
    or a status code with the body that [response.json()] parses, [None]
    when it raises.  JSON values are [jval]; JSON [null] is Python's
    [None], which the function may also return.  The theorems: the
    three-tier chain of the spec is what the code computes, except that a
    [200] answer without an ["answer"] makes the code return [None]; when
    both remote models fail, the answer is the rule-based one; the rules
    on the spec's scenario; the rule-based experience count is 0 for every
    candidate whose texts do not contain "title" or "company"; the
    graduation rule reports the end year of the last job; the answer
    depends on the candidate only through the fields of the context. *)

From S2P Require Import Prelude Accumulate Candidate.

Local Set Warnings "-register-all".

Module QA.
Import Model.

(** ** JSON values and the remote models *)

Inductive jval :=
  | JNull
  | JBool (b : bool)
  | JNum (z : Z)
  | JStr (s : text)
  | JList (l : list jval)
  | JDict (kvs : list (text * jval)).

(** [d.get(k)] on a parsed JSON object: [json.loads] keeps the last
    binding of a repeated key. *)
Definition jget (kvs : list (text * jval)) (k : text) : option jval :=
  snd <$> List.find (fun kv => bool_decide (kv.1 = k)) (reverse kvs).

Inductive response :=
  | RFail
  | RResp (status_code : N) (json : option jval).

(** [requests.post] to the extractive-QA model with [question] and
    [context], and to the generative model with a prompt. *)
Record Remote := {
  qa_model : text -> text -> response;
  gen_model : text -> response;
}.

(** ** The context (lines 122-154) *)

(** [x if x else 'N/A'] for an [Optional[str]] *)
Definition or_na (o : option text) : text :=
  match o with Some ((_ :: _) as s) => s | _ => ‹"N/A"› end.

(** Truthiness of an [Optional[str]]. *)
Definition truthy (o : option text) : bool :=
  match o with Some (_ :: _) => true | _ => false end.

Definition edu_str (e : Education) : text :=
  let s := ‹"  - "› ++ or_na (ed_degree e) ++ ‹" from "› ++ or_na (ed_institution e) in
  if truthy (ed_end_date e) then s ++ ‹" (completed "› ++ default [] (ed_end_date e) ++ ‹")"›
  else s.

Definition exp_str (x : Experience) : text :=
  let s := ‹"  - "› ++ or_na (ex_title x) ++ ‹" at "› ++ or_na (ex_company x) in
  if truthy (ex_start_date x) && truthy (ex_end_date x) then
    s ++ ‹" ("› ++ default [] (ex_start_date x) ++ ‹" - "› ++ default [] (ex_end_date x) ++ ‹")"›
  else s.

Definition format_candidate_context (c : Candidate) : text :=
  let intro := if bool_decide (introduction c <> []) then [‹"Introduction: "› ++ introduction c] else [] in
  let edu := if bool_decide (education c <> []) then ‹"Education:"› :: map edu_str (education c) else [] in
  let exp := if bool_decide (experience c <> []) then ‹"Experience:"› :: map exp_str (experience c) else [] in
  let sk := if bool_decide (skills c <> []) then [‹"Skills: "› ++ join ‹", "› (take 20 (skills c))] else [] in
  let ce := if bool_decide (certifications c <> []) then
              [‹"Certifications: "› ++ join ‹", "› (certifications c)] else [] in
  join [nl] (intro ++ edu ++ exp ++ sk ++ ce).

(** ** The rule-based answer (lines 103-120) *)

(** [str(n)] for a natural number: its decimal digits. *)
Definition digit (d : nat) : uchar := Asc (ascii_of_nat (48 + d)).

Fixpoint str_nat_go (fuel n : nat) (acc : text) : text :=
  match fuel with
  | O => acc
  | S f => if n <? 10 then digit n :: acc else str_nat_go f (n / 10) (digit (n mod 10) :: acc)
  end.
Definition str_nat (n : nat) : text := str_nat_go (S n) n [].

(** [r"20\d{2}"] at the head of a string. *)
Definition match_20dd (s : text) : option nat :=
  match s with
  | a :: b :: c :: d :: _ =>
      if bool_decide (a = Asc "2") && bool_decide (b = Asc "0") && is_digit c && is_digit d
      then Some 4 else None
  | _ => None
  end.

Definition graduation_answer (context : text) : option text :=
  if contains ‹"end_date"› context || contains ‹"202"› context then
    match last (findall match_20dd context) with
    | Some d => Some (‹"The candidate completed their graduation in "› ++ d ++ ‹"."›)
    | None => None
    end
  else None.

(** [a or b] on two counts *)
Definition exp_count (context : text) : nat :=
  match count_sub ‹"title"› (lower context) with
  | O => count_sub ‹"company"› (lower context)
  | n => n
  end.

Definition skills_answer : text :=
  ‹"The candidate's skills are listed in their profile. Please check the candidate details for the complete list."›.
Definition generic_answer : text :=
  ‹"Based on the candidate's profile, the information is available. Please refer to the candidate details for specific information."›.

Definition rule_based_answer (question context : text) : text :=
  let question_lower := lower question in
  let grad :=
    if contains ‹"graduation"› question_lower || contains ‹"graduate"› question_lower
       || contains ‹"degree"› question_lower
    then graduation_answer context else None in
  match grad with
  | Some a => a
  | None =>
      if contains ‹"experience"› question_lower || contains ‹"work"› question_lower then
        ‹"The candidate has "› ++ str_nat (exp_count context) ++ ‹" work experience entries."›
      else if contains ‹"skills"› question_lower then skills_answer
      else generic_answer
  end.

(** ** The generative fallback (lines 74-101) *)

Definition gen_prompt (question context : text) : text :=
  ‹"Context: "› ++ take 1000 context ++ [nl; nl] ++ ‹"Question: "› ++ question ++ [nl; nl] ++ ‹"Answer:"›.

(** [generated_text.split("Answer:")[-1].strip()[:200]] *)
Definition answer_after_marker (g : text) : text :=
  take 200 (strip (default [] (last (py_split ‹"Answer:"› g)))).

(** The generated text of a [200] response, when the code uses it: the
    body is a non-empty list whose first element is an object (else
    [.get] raises), and ["generated_text"] (default [""]) is a string
    (else [in] or [.split] raises) holding the marker. *)
Definition gen_text (r : response) : option text :=
  match r with
  | RResp 200 (Some (JList (JDict kvs :: _))) =>
      match default (JStr []) (jget kvs ‹"generated_text"›) with
      | JStr g => if contains ‹"Answer:"› g then Some (answer_after_marker g) else None
      | _ => None
      end
  | _ => None
  end.

Definition fallback_answer (R : Remote) (question context : text) : jval :=
  match gen_text (gen_model R (gen_prompt question context)) with
  | Some a => JStr a
  | None => JStr (rule_based_answer question context)
  end.

(** ** The extractive QA model and the whole chain (lines 20-72) *)

Definition answer_question (R : Remote) (question : text) (c : Candidate) : jval :=
  let context := format_candidate_context c in
  match qa_model R question context with
  | RResp 200 (Some result) =>
      match result with
      | JDict kvs => default JNull (jget kvs ‹"answer"›)
      | JList (r0 :: _) =>
          match r0 with
          | JDict kvs => default (JStr ‹"Unable to generate answer."›) (jget kvs ‹"answer"›)
          | _ => fallback_answer R question context
          end
      | _ => JNull
      end
  | _ => fallback_answer R question context
  end.

(** ** The spec's three-tier chain (spec, section 4.3)

    An ordered list of strategies, tried in turn until one succeeds; the
    rule-based answer is the last resort. *)

Definition first_success {A} (tiers : list (option A)) (last_resort : A) : A :=
  default last_resort (head (omap id tiers)).

(** The extractive tier succeeds on a well-formed payload: an object with
    an ["answer"], or a list whose first element is an object. *)
Definition qa_tier (r : response) : option jval :=
  match r with
  | RResp 200 (Some (JDict kvs)) => jget kvs ‹"answer"›
  | RResp 200 (Some (JList (JDict kvs :: _))) =>
      Some (default (JStr ‹"Unable to generate answer."›) (jget kvs ‹"answer"›))
  | _ => None
  end.

(** A [200] payload that the code neither uses nor treats as a failure:
    an object without ["answer"], an empty list, or a scalar. *)
Definition malformed_200 (r : response) : bool :=
  match r with
  | RResp 200 (Some (JDict kvs)) => bool_decide (jget kvs ‹"answer"› = None)
  | RResp 200 (Some (JList (_ :: _))) => false
  | RResp 200 (Some _) => true
  | _ => false
  end.

Definition three_tier (R : Remote) (question context : text) : jval :=
  first_success [qa_tier (qa_model R question context);
                 JStr <$> gen_text (gen_model R (gen_prompt question context))]
                (JStr (rule_based_answer question context)).

(** ** Lemmas *)

Lemma fallback_answer_tiers R q ctx :
  fallback_answer R q ctx =
  default (JStr (rule_based_answer q ctx)) (JStr <$> gen_text (gen_model R (gen_prompt q ctx))).
Proof. unfold fallback_answer. by destruct (gen_text _). Qed.

(** Case analysis on the response of the extractive model. *)
Ltac qa_cases :=
  lazymatch goal with |- context [qa_model ?R ?q ?ctx] => destruct (qa_model R q ctx) as [|st [res|]] end;
  repeat case_match; simplify_eq/=; rewrite ?bool_decide_eq_true, ?bool_decide_eq_false in *; try done.

(** When the extractive tier neither succeeds nor returns a malformed
    payload, the code falls back on the generative tier. *)
Lemma answer_question_fallback R q c :
  qa_tier (qa_model R q (format_candidate_context c)) = None ->
  malformed_200 (qa_model R q (format_candidate_context c)) = false ->
  answer_question R q c = fallback_answer R q (format_candidate_context c).
Proof.
  unfold answer_question, qa_tier, malformed_200. qa_cases.
Qed.

(** The spec's scenario (section 8): the introduction "Graduated in
    2020" and no other field. *)
Definition graduated_candidate : Candidate := {|
  candidate_id := ‹"c1"›; education := []; experience := []; skills := []; hobbies := [];
  certifications := []; projects := []; introduction := ‹"Graduated in 2020"› |}.

Definition graduate_question : text := ‹"When did they graduate?"›.

(** ** Theorems *)

(** C17: unless the extractive model answers [200] with a malformed
    payload, the answer is the spec's three-tier chain: the extractive
    model's answer, else the generative model's text after its last
    "Answer:" marker, else the rule-based answer. *)
Theorem answer_question_three_tier R q c :
  malformed_200 (qa_model R q (format_candidate_context c)) = false ->
  answer_question R q c = three_tier R q (format_candidate_context c).
Proof.
  intros Hm. unfold three_tier, first_success.
  destruct (qa_tier (qa_model R q (format_candidate_context c))) as [a|] eqn:Hq.
  - unfold answer_question. unfold qa_tier in Hq. qa_cases. by rewrite Hq.
  - rewrite answer_question_fallback, fallback_answer_tiers by done. simpl. by destruct (gen_text _).
Qed.

(** C18: a [200] payload without an answer (an object without
    ["answer"], an empty list, a scalar) makes [answer_question] return
    [None], where the spec treats a malformed payload as a failure of the
    first tier. *)
Theorem answer_question_malformed R q c :
  malformed_200 (qa_model R q (format_candidate_context c)) = true ->
  answer_question R q c = JNull.
Proof.
  unfold answer_question, malformed_200. qa_cases. by intros ->.
Qed.

(** Remote models that always fail (a timeout). *)
Definition offline : Remote := {| qa_model := fun _ _ => RFail; gen_model := fun _ => RFail |}.

Lemma answer_question_three_tier_witness :
  malformed_200 (qa_model offline graduate_question (format_candidate_context graduated_candidate)) = false /\
  answer_question offline graduate_question graduated_candidate =
    three_tier offline graduate_question (format_candidate_context graduated_candidate).
Proof. split; [reflexivity|]. apply answer_question_three_tier. reflexivity. Defined.

(** An extractive model that answers [200] with an empty object. *)
Definition empty_answer : Remote := {| qa_model := fun _ _ => RResp 200 (Some (JDict [])); gen_model := fun _ => RFail |}.

Lemma answer_question_malformed_witness :
  malformed_200 (qa_model empty_answer graduate_question (format_candidate_context graduated_candidate)) = true /\
  answer_question empty_answer graduate_question graduated_candidate = JNull.
Proof. split; [reflexivity|]. apply answer_question_malformed. reflexivity. Defined.

(** C19: the spec's scenario: when both remote models fail, the question
    "When did they graduate?" about a candidate introduced as "Graduated
    in 2020" gets the rule-based answer naming 2020. *)
Theorem answer_graduated_scenario R :
  let ctx := format_candidate_context graduated_candidate in
  qa_tier (qa_model R graduate_question ctx) = None ->
  malformed_200 (qa_model R graduate_question ctx) = false ->
  gen_text (gen_model R (gen_prompt graduate_question ctx)) = None ->
  answer_question R graduate_question graduated_candidate =
    JStr ‹"The candidate completed their graduation in 2020."›.
Proof.
  cbv zeta. intros Hq Hm Hg. rewrite answer_question_fallback by done.
  unfold fallback_answer. rewrite Hg. by vm_compute.
Qed.

Lemma answer_graduated_scenario_witness :
  let ctx := format_candidate_context graduated_candidate in
  qa_tier (qa_model offline graduate_question ctx) = None /\
  malformed_200 (qa_model offline graduate_question ctx) = false /\
  gen_text (gen_model offline (gen_prompt graduate_question ctx)) = None /\
  answer_question offline graduate_question graduated_candidate =
    JStr ‹"The candidate completed their graduation in 2020."›.
Proof.
  do 3 (split; [reflexivity|]). apply answer_graduated_scenario; reflexivity.
Defined.

(** C20: when the extractive tier fails and the generative model returns
    a text [pre ++ "Answer:" ++ post] with no marker in [post], the answer
    is [post] stripped and cut to 200 characters. *)
Theorem answer_question_generated R q c kvs rest pre post :
  let ctx := format_candidate_context c in
  qa_tier (qa_model R q ctx) = None ->
  malformed_200 (qa_model R q ctx) = false ->
  gen_model R (gen_prompt q ctx) = RResp 200 (Some (JList (JDict kvs :: rest))) ->
  jget kvs ‹"generated_text"› = Some (JStr (pre ++ ‹"Answer:"› ++ post)) ->
  contains ‹"Answer:"› post = false ->
  answer_question R q c = JStr (take 200 (strip post)).
Proof.
  cbv zeta. intros Hq Hm Hg Hk Hp. rewrite answer_question_fallback by done.
  unfold fallback_answer, gen_text. rewrite Hg, Hk. cbn [default id]. rewrite contains_mid.
  unfold answer_after_marker. change ‹"Answer:"› with (Asc "A" :: ‹"nswer:"›) in *.
  rewrite (py_split_last_sep (Asc "A") ‹"nswer:"›); [done| |done].
  by apply (bool_decide_unpack _); vm_compute.
Qed.

Definition generating (g : text) : Remote := {|
  qa_model := fun _ _ => RResp 503 None;
  gen_model := fun _ => RResp 200 (Some (JList [JDict [(‹"generated_text"›, JStr g)]])) |}.

Lemma answer_question_generated_witness :
  let g := ‹"Context: ... Answer: Answer:  Ten years of Python. "› in
  let ctx := format_candidate_context graduated_candidate in
  qa_tier (qa_model (generating g) graduate_question ctx) = None /\
  malformed_200 (qa_model (generating g) graduate_question ctx) = false /\
  gen_model (generating g) (gen_prompt graduate_question ctx) =
    RResp 200 (Some (JList [JDict [(‹"generated_text"›, JStr g)]])) /\
  jget [(‹"generated_text"›, JStr g)] ‹"generated_text"› =
    Some (JStr (‹"Context: ... Answer: "› ++ ‹"Answer:"› ++ ‹"  Ten years of Python. "›)) /\
  contains ‹"Answer:"› ‹"  Ten years of Python. "› = false /\
  answer_question (generating g) graduate_question graduated_candidate =
    JStr (take 200 (strip ‹"  Ten years of Python. "›)).
Proof.
  do 5 (split; [reflexivity|]).
  apply (answer_question_generated _ _ _
           [(‹"generated_text"›, JStr ‹"Context: ... Answer: Answer:  Ten years of Python. "›)] []
           ‹"Context: ... Answer: "› ‹"  Ten years of Python. "›); reflexivity.
Defined.

(** ** The experience count of the rules

    The rule counts the words "title" and "company" in the lowered
    context, but the context renders an experience as "  - T at C" and
    never writes these words itself: they occur only inside the
    candidate's own texts. *)

Definition exp_words : list text := [‹"title"›; ‹"company"›].

(** The texts of the candidate that the context shows have no occurrence
    of [p] (in any case). *)
Definition cand_free (p : text) (c : Candidate) : Prop :=
  free_of p (introduction c) /\
  Forall (fun e => free_of p (default [] (ed_degree e)) /\ free_of p (default [] (ed_institution e)) /\
                   free_of p (default [] (ed_end_date e))) (education c) /\
  Forall (fun x => free_of p (default [] (ex_title x)) /\ free_of p (default [] (ex_company x)) /\
                   free_of p (default [] (ex_start_date x)) /\ free_of p (default [] (ex_end_date x)))
         (experience c) /\
  Forall (free_of p) (skills c) /\ Forall (free_of p) (certifications c).

Ltac exp_word_cases H :=
  apply list_elem_of_In in H; simpl in H; destruct H as [<-|[<-|[]]].

(** Close the goals of [free_split] on the pieces of a context line. *)
Ltac free_pieces :=
  free_split; try reflexivity; try done.

Lemma free_or_na p o : p ∈ exp_words -> free_of p (default [] o) -> free_of p (or_na o).
Proof. intros Hp Ho. exp_word_cases Hp; destruct o as [[|]|]; first [exact Ho | reflexivity]. Qed.

Lemma free_edu_str p e :
  p ∈ exp_words ->
  free_of p (default [] (ed_degree e)) /\ free_of p (default [] (ed_institution e)) /\
  free_of p (default [] (ed_end_date e)) ->
  free_of p (edu_str e).
Proof.
  intros Hp (H1 & H2 & H3). pose proof (free_or_na _ _ Hp H1). pose proof (free_or_na _ _ Hp H2).
  unfold edu_str. exp_word_cases Hp; destruct (truthy _); free_pieces.
Qed.

Lemma free_exp_str p x :
  p ∈ exp_words ->
  free_of p (default [] (ex_title x)) /\ free_of p (default [] (ex_company x)) /\
  free_of p (default [] (ex_start_date x)) /\ free_of p (default [] (ex_end_date x)) ->
  free_of p (exp_str x).
Proof.
  intros Hp (H1 & H2 & H3 & H4). pose proof (free_or_na _ _ Hp H1). pose proof (free_or_na _ _ Hp H2).
  unfold exp_str. exp_word_cases Hp; destruct (_ && _); free_pieces.
Qed.

Lemma free_join_comma p l : p ∈ exp_words -> Forall (free_of p) l -> free_of p (join ‹", "› l).
Proof. intros Hp. exp_word_cases Hp; apply free_of_join; done. Qed.

Lemma free_context p c : p ∈ exp_words -> cand_free p c -> free_of p (format_candidate_context c).
Proof.
  intros Hp (Hi & He & Hx & Hs & Hc). unfold format_candidate_context.
  assert (free_of p ‹"Education:"› /\ free_of p ‹"Experience:"›) as [Hed Hex]
    by (exp_word_cases Hp; done).
  pose proof (free_join_comma _ _ Hp (Forall_take _ 20 _ Hs)) as Hs'.
  pose proof (free_join_comma _ _ Hp Hc) as Hc'.
  apply free_of_join; [by exp_word_cases Hp|done|by exp_word_cases Hp|by exp_word_cases Hp|by exp_word_cases Hp|].
  repeat apply Forall_app_2; repeat case_bool_decide; repeat constructor; try done.
  - exp_word_cases Hp; free_pieces.
  - apply Forall_map. eapply Forall_impl; [exact He|]. intros e. by apply free_edu_str.
  - apply Forall_map. eapply Forall_impl; [exact Hx|]. intros x. by apply free_exp_str.
  - exp_word_cases Hp; free_pieces.
  - exp_word_cases Hp; free_pieces.
Qed.

(** C21: for every candidate whose own texts never mention "title" or
    "company", the rule-based answer to an experience question that does
    not mention graduation reports 0 work experience entries, however
    many entries the candidate has: the code counts words that the
    context it builds never contains. *)
Theorem experience_answer_zero q c :
  cand_free ‹"title"› c -> cand_free ‹"company"› c ->
  contains ‹"graduation"› (lower q) = false -> contains ‹"graduate"› (lower q) = false ->
  contains ‹"degree"› (lower q) = false ->
  contains ‹"experience"› (lower q) || contains ‹"work"› (lower q) = true ->
  rule_based_answer q (format_candidate_context c) = ‹"The candidate has 0 work experience entries."›.
Proof.
  intros Ht Hc H1 H2 H3 Hw. unfold rule_based_answer. rewrite H1, H2, H3, Hw. simpl.
  unfold exp_count. rewrite (free_context ‹"title"› c), (free_context ‹"company"› c); try done;
    unfold exp_words; set_solver.
Qed.

Definition engineer : Experience := {|
  ex_title := Some ‹"Senior Engineer"›; ex_company := Some ‹"Acme Inc."›;
  ex_start_date := Some ‹"2019"›; ex_end_date := Some ‹"2023"›;
  ex_description := None; ex_location := None |}.

Definition two_jobs_candidate : Candidate := {|
  candidate_id := ‹"c2"›; education := []; experience := [engineer; engineer]; skills := [‹"Python"›];
  hobbies := []; certifications := []; projects := []; introduction := ‹"Backend engineer"› |}.

Lemma experience_answer_zero_witness :
  length (experience two_jobs_candidate) = 2 /\
  rule_based_answer ‹"How much work experience?"› (format_candidate_context two_jobs_candidate) =
    ‹"The candidate has 0 work experience entries."›.
Proof.
  split; [reflexivity|].
  apply experience_answer_zero;
    [repeat split; repeat constructor|repeat split; repeat constructor|reflexivity..].
Defined.

(** ** What the answer depends on *)

Lemma take_20_nil (l : list text) : take 20 l = [] <-> l = [].
Proof. split; [|by intros ->]. destruct l; [done|discriminate]. Qed.

(** C23: the answer depends on the candidate only through the
    introduction, the education, the experience, the first 20 skills and
    the certifications: two candidates that agree on these get the same
    answer from any remote models, whatever their ids, hobbies, projects
    and further skills. *)
Theorem answer_question_context_fields R q c c' :
  introduction c = introduction c' -> education c = education c' -> experience c = experience c' ->
  take 20 (skills c) = take 20 (skills c') -> certifications c = certifications c' ->
  answer_question R q c = answer_question R q c'.
Proof.
  intros Hi He Hx Hs Hc. unfold answer_question.
  enough (format_candidate_context c = format_candidate_context c') as -> by done.
  unfold format_candidate_context. rewrite Hi, He, Hx, Hs, Hc.
  assert (bool_decide (skills c <> []) = bool_decide (skills c' <> [])) as ->; [|done].
  apply bool_decide_ext. rewrite <-(take_20_nil (skills c)), <-(take_20_nil (skills c')), Hs. done.
Qed.

Definition many_skills : list text :=
  [‹"Python"›; ‹"Go"›; ‹"Rust"›; ‹"Java"›; ‹"C"›; ‹"C++"›; ‹"SQL"›; ‹"Bash"›; ‹"Lua"›; ‹"Perl"›;
   ‹"Ruby"›; ‹"PHP"›; ‹"Scala"›; ‹"Kotlin"›; ‹"Swift"›; ‹"Dart"›; ‹"Elm"›; ‹"OCaml"›; ‹"Haskell"›; ‹"Lisp"›].

Lemma answer_question_context_fields_witness :
  answer_question offline graduate_question
    {| candidate_id := ‹"a"›; education := []; experience := []; skills := many_skills ++ [‹"Rocq"›];
       hobbies := [‹"chess"›]; certifications := []; projects := []; introduction := ‹"Engineer"› |} =
  answer_question offline graduate_question
    {| candidate_id := ‹"b"›; education := []; experience := []; skills := many_skills;
       hobbies := []; certifications := []; projects := []; introduction := ‹"Engineer"› |}.
Proof. apply answer_question_context_fields; reflexivity. Defined.

(** ** The graduation rule *)

(** A match of [20\d{2}] consists of digits, so it never covers a
    non-digit character. *)
Lemma match_20dd_local x a b : negb (is_digit x) = true -> match_20dd (a ++ x :: b) = match_20dd a.
Proof.
  intros Hx. apply negb_true_iff in Hx.
  destruct a as [|a1 [|a2 [|a3 [|a4 a]]]]; [| | | |reflexivity];
    destruct b as [|b1 [|b2 [|b3 b]]]; cbn [app match_20dd]; rewrite ?Hx, ?andb_false_r; try reflexivity;
    repeat case_bool_decide; subst; simpl in *; rewrite ?Hx; done.
Qed.

Lemma match_20dd_len a n : match_20dd a = Some n -> 0 < n <= length a.
Proof.
  destruct a as [|a1 [|a2 [|a3 [|a4 a]]]]; cbn [match_20dd]; try done.
  case_match; [intros [= <-]; simpl; lia|done].
Qed.

Lemma findall_20dd_app a b :
  fcut (fun c => negb (is_digit c)) a b = true ->
  findall match_20dd (a ++ b) = findall match_20dd a ++ findall match_20dd b.
Proof. apply findall_app; [apply match_20dd_local|apply match_20dd_len]. Qed.

Lemma findall_20dd_join sep l :
  sep <> [] -> Forall (fun c => negb (is_digit c) = true) sep ->
  findall match_20dd (join sep l) = mjoin (map (findall match_20dd) l).
Proof. apply findall_join; [apply match_20dd_local|apply match_20dd_len]. Qed.

(** A label followed by a comma-separated list of strings without a year
    has no year. *)
Lemma findall_label_list lab l :
  findall match_20dd lab = [] -> match last lab with Some x => negb (is_digit x) | None => true end = true ->
  Forall (fun s => findall match_20dd s = []) l -> findall match_20dd (lab ++ join ‹", "› l) = [].
Proof.
  intros Hlab Hlast Hl. rewrite findall_20dd_app by (unfold fcut; by rewrite Hlast, orb_true_r).
  rewrite Hlab, findall_20dd_join by (done || by repeat constructor).
  apply join_nil, Forall_fmap. eapply Forall_impl; [exact Hl|]. done.
Qed.

Lemma findall_year d : is_digit d = true -> findall match_20dd (‹"202"› ++ [d]) = [‹"202"› ++ [d]].
Proof. intros Hd. unfold findall, match_20dd. cbn -[is_digit]. by rewrite Hd. Qed.

(** The years of an experience line with both dates end with the end date. *)
Lemma findall_exp_str_last x d :
  truthy (ex_start_date x) = true -> ex_end_date x = Some (‹"202"› ++ [d]) -> is_digit d = true ->
  last (findall match_20dd (exp_str x)) = Some (‹"202"› ++ [d]).
Proof.
  intros Hst Hend Hd. unfold exp_str. rewrite Hst, Hend.
  remember (‹"202"› ++ [d]) as y eqn:Hy. assert (truthy (Some y) = true) as -> by (by subst).
  cbn [andb default id].
  rewrite !app_assoc, findall_20dd_app by reflexivity.
  rewrite findall_20dd_app by (unfold fcut; rewrite last_app; cbn; by rewrite orb_true_r).
  subst y. rewrite findall_year by done. change (findall match_20dd ‹")"›) with (@nil text).
  by rewrite app_nil_r, last_snoc.
Qed.

(** The last year of the context is the end year of the last job, when
    the lines after it (skills and certifications) hold no year. *)
Lemma context_last_year c x d :
  last (experience c) = Some x -> truthy (ex_start_date x) = true ->
  ex_end_date x = Some (‹"202"› ++ [d]) -> is_digit d = true ->
  Forall (fun s => findall match_20dd s = []) (take 20 (skills c) ++ certifications c) ->
  last (findall match_20dd (format_candidate_context c)) = Some (‹"202"› ++ [d]).
Proof.
  intros Hl Hst Hend Hd Hsc. apply Forall_app in Hsc as [Hs Hc].
  apply last_Some in Hl as [init Hx]. unfold format_candidate_context. rewrite Hx.
  rewrite (bool_decide_true (init ++ [x] <> [])) by (by destruct init).
  rewrite findall_20dd_join by (done || by repeat constructor).
  match goal with |- last (mjoin (map _ (?i ++ ?e ++ (?h :: map exp_str _) ++ ?sk ++ ?ce))) = _ =>
    replace (i ++ e ++ (h :: map exp_str (init ++ [x])) ++ sk ++ ce)
      with ((i ++ e ++ h :: map exp_str init) ++ exp_str x :: (sk ++ ce))
      by (rewrite map_app; simpl; by rewrite <-!app_assoc) end.
  apply last_mjoin_map; [by apply findall_exp_str_last|].
  apply Forall_app; split; case_bool_decide; (first [by constructor | apply Forall_singleton, findall_label_list]);
    first [reflexivity | by apply Forall_take | done].
Qed.

(** C22: the graduation rule reports the end year of the candidate's last
    job as the graduation year: for every candidate whose last experience
    entry has both dates and ends in a year of the 2020s, and whose first
    20 skills and certifications mention no 20xx year, a graduation
    question gets the rule-based answer "The candidate completed their
    graduation in <that year>.", whatever the education says: the rule
    takes the last 20xx match of the whole context, and the experience
    lines come after the education lines. *)
Theorem graduation_reports_last_job_year q c x d :
  contains ‹"graduation"› (lower q) || contains ‹"graduate"› (lower q) || contains ‹"degree"› (lower q) = true ->
  last (experience c) = Some x -> truthy (ex_start_date x) = true ->
  ex_end_date x = Some (‹"202"› ++ [d]) -> is_digit d = true ->
  Forall (fun s => findall match_20dd s = []) (take 20 (skills c) ++ certifications c) ->
  rule_based_answer q (format_candidate_context c) =
    ‹"The candidate completed their graduation in "› ++ (‹"202"› ++ [d]) ++ ‹"."›.
Proof.
  intros Hq Hl Hst Hend Hd Hsc.
  pose proof (context_last_year c x d Hl Hst Hend Hd Hsc) as Hlast.
  destruct (findall_go_sub match_20dd 0 (format_candidate_context c) (‹"202"› ++ [d])) as (a & b & Hab);
    [apply last_Some in Hlast as [? Hf]; unfold findall in Hf; rewrite Hf; apply in_app_iff; by right; left|].
  unfold rule_based_answer, graduation_answer. cbv zeta. rewrite Hq, Hlast.
  rewrite Hab, <-app_assoc, contains_mid, orb_true_r. done.
Qed.

(** A candidate with a master's degree from 2022 (listed first, as
    resumes do) who then worked until 2024. *)
Definition graduate_then_engineer : Candidate := {|
  candidate_id := ‹"c3"›;
  education := [{| ed_degree := Some ‹"Master of Science"›; ed_institution := Some ‹"Stanford University"›;
                   ed_field := None; ed_start_date := None; ed_end_date := Some ‹"2022"›; ed_gpa := None |}];
  experience := [{| ex_title := Some ‹"Engineer"›; ex_company := Some ‹"Acme"›;
                    ex_start_date := Some ‹"2022"›; ex_end_date := Some ‹"2024"›;
                    ex_description := None; ex_location := None |}];
  skills := [‹"Python"›]; hobbies := []; certifications := []; projects := [];
  introduction := [] |}.

Lemma graduation_reports_last_job_year_witness :
  rule_based_answer graduate_question (format_candidate_context graduate_then_engineer) =
    ‹"The candidate completed their graduation in 2024."›.
Proof.
  apply (graduation_reports_last_job_year _ _
    {| ex_title := Some ‹"Engineer"›; ex_company := Some ‹"Acme"›; ex_start_date := Some ‹"2022"›;
       ex_end_date := Some ‹"2024"›; ex_description := None; ex_location := None |} (Asc "4"));
    first [reflexivity | repeat constructor].
Defined.

End QA.
