(* ===== verification/Blob.v ===== *)
(** * The blob store

    [SupabaseService.upload_file] (src/app/services/supabase_service.py,
    lines 18-54).  The Supabase client is the record [Storage] of the
    outcomes of its three calls: the storage upload (which may raise),
    the public URL (whose failure is caught and gives [None]) and the
    insertion into the table "resume_uploads" (whose failure is caught
    and printed; on success the returned rows may carry an "id").  The
    clock [Clock] gives the two readings of [datetime.now()].  The state
    [blobs] records what the calls that succeeded stored: the bucket, a
    map from paths to contents, and the rows of the table.  The theorems:
    the URL and the table are best effort (the upload succeeds whenever
    the storage upload does), the metadata describes the stored file, and
    a failed storage upload changes nothing. *)

From S2P Require Import Prelude Processor.

Module Blob.
Import Processor.

(** The dict [metadata] (lines 37-44). *)
Record metadata := {
  m_id : text;
  m_filename : text;
  m_file_path : text;
  m_file_url : option text;
  m_upload_time : text;
  m_file_size : nat;
}.

Record Storage := {
  (** [storage.from_(bucket).upload(path, content, ...)] *)
  st_upload : text -> bytes -> result unit;
  (** [get_public_url(path)], [None] when it raises *)
  st_public_url : text -> option text;
  (** [table("resume_uploads").insert(metadata).execute()]: the rows of
      [db_response.data] with their "id" ([None] when a row has none), or
      the exception *)
  st_insert : metadata -> result (list (option text));
}.

(** [datetime.now().strftime("%Y%m%d_%H%M%S")] and the later
    [datetime.now().isoformat()]. *)
Record Clock := { timestamp : text; now_iso : text }.

Record blobs := {
  bucket : gmap text bytes;
  upload_rows : list metadata;
}.

Definition upload_error (msg : text) : text :=
  ‹"Error uploading file to Supabase storage: "› ++ msg.

(** [file_path = f"{timestamp}_{filename}"] *)
Definition file_path_of (clk : Clock) (filename : text) : text := timestamp clk ++ ‹"_"› ++ filename.

(** The metadata before the table insertion (lines 37-44). *)
Definition initial_metadata (S : Storage) (clk : Clock) (file_content : bytes) (filename : text)
  : metadata := {|
  m_id := file_path_of clk filename; m_filename := filename; m_file_path := file_path_of clk filename;
  m_file_url := st_public_url S (file_path_of clk filename); m_upload_time := now_iso clk;
  m_file_size := length file_content |}.

(** [metadata["id"] = db_response.data[0].get("id", file_path)] *)
Definition with_id (meta : metadata) (id : text) : metadata := {|
  m_id := id; m_filename := m_filename meta; m_file_path := m_file_path meta;
  m_file_url := m_file_url meta; m_upload_time := m_upload_time meta; m_file_size := m_file_size meta |}.

Definition upload_file (S : Storage) (clk : Clock) (file_content : bytes) (filename : text)
  (b : blobs) : result (blobs * metadata) :=
  let file_path := file_path_of clk filename in
  match st_upload S file_path file_content with
  | Err e => Err (upload_error e)
  | Ok _ =>
      let b := {| bucket := <[file_path := file_content]> (bucket b); upload_rows := upload_rows b |} in
      let meta := initial_metadata S clk file_content filename in
      match st_insert S meta with
      | Ok (row :: _) =>
          Ok ({| bucket := bucket b; upload_rows := upload_rows b ++ [meta] |},
              with_id meta (default file_path row))
      | Ok [] => Ok (b, meta)
      | Err _ => Ok (b, meta)
      end
  end.

(** ** Lemmas *)

Lemma upload_file_ok S clk content filename b u :
  st_upload S (file_path_of clk filename) content = Ok u ->
  exists b' meta, upload_file S clk content filename b = Ok (b', meta) /\
                  bucket b' = <[file_path_of clk filename := content]> (bucket b).
Proof.
  intros Hu. unfold upload_file. rewrite Hu.
  destruct (st_insert S _) as [[|row rows]|e]; by eexists _, _.
Qed.

(** ** Theorems *)

(** C27: the public URL and the table insertion are best effort: whenever
    the storage upload succeeds, [upload_file] succeeds, the bucket holds
    the content under the path [timestamp_filename], and the metadata
    names that path, the file name and the size of the content; its id is
    the id of the first row the table returned, or the path. *)
Theorem upload_file_best_effort S clk content filename b u :
  st_upload S (file_path_of clk filename) content = Ok u ->
  exists b' meta,
    upload_file S clk content filename b = Ok (b', meta) /\
    bucket b' = <[file_path_of clk filename := content]> (bucket b) /\
    m_file_path meta = file_path_of clk filename /\ m_filename meta = filename /\
    m_file_size meta = length content /\
    m_id meta = match st_insert S (initial_metadata S clk content filename) with
                | Ok (row :: _) => default (file_path_of clk filename) row
                | _ => file_path_of clk filename
                end.
Proof.
  intros Hu. unfold upload_file. rewrite Hu.
  destruct (st_insert S _) as [[|row rows]|e]; eexists _, _; split_and!; done.
Qed.

(** A failed storage upload is reported as an error carrying the
    client's message. *)
Lemma upload_file_error S clk content filename b e :
  st_upload S (file_path_of clk filename) content = Err e ->
  upload_file S clk content filename b = Err (upload_error e).
Proof. intros He. unfold upload_file. by rewrite He. Qed.

(** A client whose storage accepts every upload, whose URL call works and
    whose table insertion raises (the row-level security case the code
    mentions). *)
Definition rls_storage : Storage := {|
  st_upload := fun _ _ => Ok tt;
  st_public_url := fun p => Some (‹"https://blobs/"› ++ p);
  st_insert := fun _ => Err ‹"row-level security"› |}.

Definition clock0 : Clock := {| timestamp := ‹"20240101_120000"›; now_iso := ‹"2024-01-01T12:00:00"› |}.

Definition no_blobs : blobs := {| bucket := ∅; upload_rows := [] |}.

Lemma upload_file_best_effort_witness :
  st_upload rls_storage (file_path_of clock0 ‹"cv.pdf"›) [] = Ok tt /\
  exists b' meta,
    upload_file rls_storage clock0 [] ‹"cv.pdf"› no_blobs = Ok (b', meta) /\
    bucket b' = <[file_path_of clock0 ‹"cv.pdf"› := []]> (bucket no_blobs) /\
    m_file_path meta = file_path_of clock0 ‹"cv.pdf"› /\ m_filename meta = ‹"cv.pdf"› /\
    m_file_size meta = length (@nil Byte.byte) /\
    m_id meta = match st_insert rls_storage (initial_metadata rls_storage clock0 [] ‹"cv.pdf"›) with
                | Ok (row :: _) => default (file_path_of clock0 ‹"cv.pdf"›) row
                | _ => file_path_of clock0 ‹"cv.pdf"›
                end.
Proof. split; [reflexivity|]. apply (upload_file_best_effort _ _ _ _ _ tt). reflexivity. Defined.

End Blob.
