(* ===== verification/Api.v ===== *)
(** * The HTTP API

    The handlers of src/app/main.py over the state of the service: the
    blob store and the candidate collection ([world]).  A request is one
    of the five routes; [handle] runs its handler, with its guards and
    its [try]/[except] clauses, and returns the new state and the HTTP
    response.  The collaborators are the record [Env]: the document
    readers, the remote models, the Supabase client and the clock, any of
    them, at every step.  [reachable] is the step relation closed from the
    empty service.  An [HTTPException] is an [Exception]: raised inside
    [upload_resume]'s [try], it is caught by [except Exception] and
    reported as 500 with the detail [f"Error processing resume: {e}"],
    where [str(e)] of Starlette's [HTTPException] is ["400: detail"];
    [get_candidate] and [ask_question] re-raise it first.  The theorems:
    every reachable state keeps unique candidate ids and every stored
    record within the caps of the extractor; an unsupported extension
    is reported as 500, before anything is stored; an unknown id gives
    404; every response is a 200, a 404 or a 500; a failed extraction
    leaves the uploaded blob without a record; a successful upload is
    returned by the get route. *)

From S2P Require Import Prelude Segmenter Accumulate Processor Candidate QA Store Blob.

Module Api.
Import Segmenter Accumulate Processor Model QA Store Blob.

(** ** [os.path.splitext(filename)[1]] *)

(** The part after the last ["/"]. *)
Definition basename (p : text) : text := default [] (last (split_by (ceq (Asc "/")) p)).

(** The extension is the suffix of the base name from its last dot, when
    a character other than a dot precedes that dot in the base name
    ([genericpath._splitext]). *)
Definition splitext_ext (p : text) : text :=
  let b := basename p in
  let k := span_len (fun c => negb (ceq (Asc ".") c)) (reverse b) in
  if k =? length b then []
  else
    let i := length b - k - 1 in
    if existsb (fun c => negb (ceq (Asc ".") c)) (take i b) then drop i b else [].

(** ** State, requests and responses *)

Record world := {
  blob_store : blobs;
  candidates : collection;
}.

Definition init : world := {| blob_store := {| bucket := ∅; upload_rows := [] |}; candidates := [] |}.

Record Env := {
  readers : DocReaders;
  remote : Remote;
  storage : Storage;
  clock : Clock;
}.

Inductive request :=
  | Root
  | Upload (filename : option text) (content : bytes)
  | ListCandidates
  | GetCandidate (candidate_id : text)
  | Ask (candidate_id : text) (question : text).

Inductive resp_body :=
  | BStatus
  | BUploaded (candidate_id : text) (meta : metadata) (data : candidate_data)
  | BSummaries (l : list CandidateSummary)
  | BCandidate (c : Candidate)
  | BAnswer (candidate_id : text) (question : text) (answer : jval)
  | BDetail (detail : text).

Record http_response := { status : N; body : resp_body }.

(** [str(HTTPException(status_code=n, detail=d))] *)
Definition http_exception_str (code : text) (detail : text) : text := code ++ ‹": "› ++ detail.

Definition upload_failure (msg : text) : http_response :=
  {| status := 500; body := BDetail (‹"Error processing resume: "› ++ msg) |}.

Definition not_found : http_response := {| status := 404; body := BDetail ‹"Candidate not found"› |}.

(** ** The handlers *)

(** [upload_resume] (lines 37-74) *)
Definition upload_resume (E : Env) (w : world) (filename : option text) (content : bytes)
  : world * http_response :=
  match filename with
  | None | Some [] => (w, upload_failure (http_exception_str ‹"400"› ‹"No file provided"›))
  | Some fn =>
      let file_ext := lower (splitext_ext fn) in
      if negb (list_mem file_ext [‹".pdf"›; ‹".docx"›]) then
        (w, upload_failure (http_exception_str ‹"400"›
                              ‹"Invalid file type. Only PDF and DOCX files are allowed."›))
      else
        match upload_file (storage E) (clock E) content fn (blob_store w) with
        | Err e => (w, upload_failure e)
        | Ok (b, meta) =>
            let w := {| blob_store := b; candidates := candidates w |} in
            match extract_text (readers E) content file_ext with
            | Err e => (w, upload_failure e)
            | Ok resume_text =>
                let candidate_data := process_resume resume_text in
                let (col, candidate_doc) := save_candidate (m_id meta) candidate_data (candidates w) in
                ({| blob_store := b; candidates := col |},
                 {| status := 200;
                    body := BUploaded (doc_candidate_id candidate_doc) meta candidate_data |})
            end
        end
  end.

(** [list_candidates] (lines 77-83) *)
Definition list_candidates (w : world) : http_response :=
  {| status := 200; body := BSummaries (get_all_candidates_summary (candidates w)) |}.

(** [get_candidate] (lines 86-96) *)
Definition get_candidate (w : world) (candidate_id : text) : http_response :=
  match get_candidate_by_id candidate_id (candidates w) with
  | None => not_found
  | Some c => {| status := 200; body := BCandidate c |}
  end.

(** [ask_question] (lines 99-120) *)
Definition ask_question (E : Env) (w : world) (candidate_id question : text) : http_response :=
  match get_candidate_by_id candidate_id (candidates w) with
  | None => not_found
  | Some c =>
      {| status := 200;
         body := BAnswer candidate_id question (answer_question (remote E) question c) |}
  end.

Definition handle (E : Env) (w : world) (r : request) : world * http_response :=
  match r with
  | Root => (w, {| status := 200; body := BStatus |})
  | Upload fn content => upload_resume E w fn content
  | ListCandidates => (w, list_candidates w)
  | GetCandidate id => (w, get_candidate w id)
  | Ask id q => (w, ask_question E w id q)
  end.

(** The states the service reaches from its start by any sequence of
    requests, each under any collaborators. *)
Inductive reachable : world -> Prop :=
  | reach_init : reachable init
  | reach_step E w r : reachable w -> reachable (handle E w r).1.

(** ** The invariant of the service *)

(** A stored record within the caps of the extractor. *)
Definition doc_caps (d : candidate_doc) : Prop :=
  length (doc_education d) <= 5 /\ length (doc_experience d) <= 10 /\
  length (doc_skills d) <= 30 /\ length (doc_hobbies d) <= 10 /\
  length (doc_certifications d) <= 10 /\ length (doc_projects d) <= 10 /\
  length (doc_introduction d) <= 500.

Definition service_ok (w : world) : Prop :=
  NoDup (ids (candidates w)) /\ Forall doc_caps (candidates w).

(** ** Lemmas *)

Lemma doc_of_data_caps id t : doc_caps (doc_of_data id (process_resume t)).
Proof. apply process_resume_bounds. Qed.

(** What a successful upload does to the state. *)
Lemma upload_resume_state E w fn content :
  (upload_resume E w fn content).1 = w \/
  (exists b, (upload_resume E w fn content).1 = {| blob_store := b; candidates := candidates w |}) \/
  (exists b id t, (upload_resume E w fn content).1 =
                  {| blob_store := b; candidates := upsert (doc_of_data id (process_resume t)) (candidates w) |}).
Proof.
  unfold upload_resume. destruct fn as [[|c fn]|]; [by left|..|by left].
  case_match; [by left|]. destruct (upload_file _ _ _ _ _) as [[b meta]|e]; [|by left].
  destruct (extract_text _ _ _) as [t|e]; [|right; left; by eexists].
  right; right. by eexists _, _, _.
Qed.

(** ** Theorems *)

(** C16: every state the service reaches keeps the candidate ids of the
    collection unique and every stored record within the caps of the
    extractor (5 education, 10 experience, 30 skills, 10 hobbies, 10
    certifications, 10 projects, 500 characters of introduction), for
    any sequence of requests and any behaviour of the collaborators. *)
Theorem reachable_service_ok w : reachable w -> service_ok w.
Proof.
  induction 1 as [|E w r _ [Hids Hcaps]]; [split; constructor|].
  destruct r as [|fn content| | |]; simpl; try by split.
  destruct (upload_resume_state E w fn content) as [->|[[b ->]|(b & id & t & ->)]]; try by split.
  split; simpl; [by apply ids_upsert_NoDup|apply Forall_upsert; [apply doc_of_data_caps|done]].
Qed.

(** Collaborators for the examples: a PDF reader that returns the sample
    resume of the segmenter as one page, a DOCX reader that fails, remote
    models that time out, a Supabase client whose table insertion fails. *)
Definition env0 : Env := {|
  readers := {| pdf_pages := fun _ => Ok [sample_resume];
                docx_paragraphs := fun _ => Err ‹"File is not a zip file"› |};
  remote := offline;
  storage := rls_storage;
  clock := clock0 |}.

Definition uploaded0 : world := (handle env0 init (Upload (Some ‹"cv.pdf"›) [])).1.

Lemma reachable_service_ok_witness : reachable uploaded0 /\ service_ok uploaded0.
Proof.
  assert (reachable uploaded0) as H by (apply reach_step, reach_init).
  split; [exact H|]. apply reachable_service_ok. exact H.
Defined.

(** C28: an upload whose extension is neither .pdf nor .docx (in any
    case) is refused before anything is stored, but with status 500 and
    the detail "Error processing resume: 400: Invalid file type...": the
    400 exception is raised inside the [try] and caught by its
    [except Exception].  The spec asks for an unsupported-format error
    distinct from processing errors. *)
Theorem upload_unsupported_500 E w fn content :
  fn <> [] -> list_mem (lower (splitext_ext fn)) [‹".pdf"›; ‹".docx"›] = false ->
  handle E w (Upload (Some fn) content) =
  (w, {| status := 500;
         body := BDetail (‹"Error processing resume: 400: Invalid file type. Only PDF and DOCX files are allowed."›) |}).
Proof. intros Hfn Hext. destruct fn as [|c fn]; [done|]. simpl. by rewrite Hext. Qed.

Lemma upload_unsupported_500_witness :
  ‹"resume.txt"› <> [] /\ list_mem (lower (splitext_ext ‹"resume.txt"›)) [‹".pdf"›; ‹".docx"›] = false /\
  handle env0 init (Upload (Some ‹"resume.txt"›) []) =
  (init, {| status := 500;
            body := BDetail (‹"Error processing resume: 400: Invalid file type. Only PDF and DOCX files are allowed."›) |}).
Proof.
  split; [discriminate|]. split; [reflexivity|]. apply upload_unsupported_500; [discriminate|reflexivity].
Defined.

(** C29: a candidate id that is not stored gives 404 "Candidate not
    found" on the get and ask routes, distinct from the 500 of other
    failures, and changes nothing. *)
Theorem unknown_id_404 E w id q :
  get_candidate_by_id id (candidates w) = None ->
  handle E w (GetCandidate id) = (w, not_found) /\ handle E w (Ask id q) = (w, not_found) /\
  status not_found = 404%N.
Proof. intros H. simpl. unfold get_candidate, ask_question. by rewrite H. Qed.

Lemma unknown_id_404_witness :
  get_candidate_by_id ‹"nobody"› (candidates uploaded0) = None /\
  handle env0 uploaded0 (GetCandidate ‹"nobody"›) = (uploaded0, not_found) /\
  handle env0 uploaded0 (Ask ‹"nobody"› ‹"Skills?"›) = (uploaded0, not_found) /\ status not_found = 404%N.
Proof. split; [vm_compute; reflexivity|]. apply unknown_id_404. vm_compute. reflexivity. Defined.

(** C32: every response of the service has status 200, 404 or 500,
    whatever the request and the collaborators: the 400 errors that
    [upload_resume] raises never reach the client as 400. *)
Theorem handle_status E w r : status (handle E w r).2 ∈ [200%N; 404%N; 500%N].
Proof.
  destruct r as [|fn content| |id|id q]; simpl.
  - set_solver.
  - unfold upload_resume. repeat case_match; simpl; set_solver.
  - set_solver.
  - unfold get_candidate. case_match; simpl; set_solver.
  - unfold ask_question. case_match; simpl; set_solver.
Qed.

(** C36: in a state that satisfies the invariant, the list route returns
    one summary per stored candidate, each with at most 200 characters of
    introduction, 10 skills, 10 experience and 5 education entries. *)
Theorem list_candidates_bounds w :
  service_ok w ->
  exists l, list_candidates w = {| status := 200; body := BSummaries l |} /\
    length l = length (candidates w) /\
    Forall (fun cs => length (cs_introduction cs) <= 200 /\ length (cs_skills cs) <= 10 /\
                      experience_count cs <= 10 /\ education_count cs <= 5) l.
Proof.
  intros [_ Hcaps]. eexists. split; [reflexivity|]. unfold get_all_candidates_summary.
  rewrite length_map. split; [done|]. apply Forall_map. eapply Forall_impl; [exact Hcaps|].
  intros d (He & Hx & _). simpl. rewrite !length_take. lia.
Qed.

Lemma list_candidates_bounds_witness :
  service_ok uploaded0 /\
  exists l, list_candidates uploaded0 = {| status := 200; body := BSummaries l |} /\
    length l = length (candidates uploaded0) /\
    Forall (fun cs => length (cs_introduction cs) <= 200 /\ length (cs_skills cs) <= 10 /\
                      experience_count cs <= 10 /\ education_count cs <= 5) l.
Proof.
  assert (service_ok uploaded0) as H.
  { split; vm_compute; repeat constructor; try set_solver; lia. }
  split; [exact H|]. apply list_candidates_bounds. exact H.
Defined.

(** C30: when the blob upload succeeds and the text extraction then
    fails, the client gets a 500 and no record is saved, but the file stays
    in the bucket: the code uploads before it extracts, and nothing
    removes the blob afterwards. *)
Theorem upload_extraction_failure_orphan E w fn content u e :
  fn <> [] -> list_mem (lower (splitext_ext fn)) [‹".pdf"›; ‹".docx"›] = true ->
  st_upload (storage E) (file_path_of (clock E) fn) content = Ok u ->
  extract_text (readers E) content (lower (splitext_ext fn)) = Err e ->
  (handle E w (Upload (Some fn) content)).2 = upload_failure e /\
  candidates (handle E w (Upload (Some fn) content)).1 = candidates w /\
  bucket (blob_store (handle E w (Upload (Some fn) content)).1) !! file_path_of (clock E) fn = Some content.
Proof.
  intros Hfn Hext Hu He. destruct fn as [|c fn]; [done|].
  destruct (upload_file_ok (storage E) (clock E) content (c :: fn) (blob_store w) u Hu)
    as (b & meta & Hup & Hb).
  simpl. rewrite Hext. simpl. rewrite Hup, He. simpl. rewrite Hb. split_and!; [done|done|].
  apply lookup_insert_eq.
Qed.

Lemma upload_extraction_failure_orphan_witness :
  ‹"cv.docx"› <> [] /\ list_mem (lower (splitext_ext ‹"cv.docx"›)) [‹".pdf"›; ‹".docx"›] = true /\
  st_upload (storage env0) (file_path_of (clock env0) ‹"cv.docx"›) [] = Ok tt /\
  extract_text (readers env0) [] (lower (splitext_ext ‹"cv.docx"›)) =
    Err (extract_error ‹"File is not a zip file"›) /\
  (handle env0 init (Upload (Some ‹"cv.docx"›) [])).2 = upload_failure (extract_error ‹"File is not a zip file"›) /\
  candidates (handle env0 init (Upload (Some ‹"cv.docx"›) [])).1 = candidates init /\
  bucket (blob_store (handle env0 init (Upload (Some ‹"cv.docx"›) [])).1) !!
    file_path_of (clock env0) ‹"cv.docx"› = Some [].
Proof.
  do 4 (split; [try discriminate; reflexivity|]).
  apply (upload_extraction_failure_orphan _ _ _ _ tt); [discriminate|reflexivity..].
Defined.

(** C31: after a successful upload, the get route returns the record
    extracted from the file, under the id the upload answered with. *)
Theorem upload_then_get E w fn content u t :
  fn <> [] -> list_mem (lower (splitext_ext fn)) [‹".pdf"›; ‹".docx"›] = true ->
  st_upload (storage E) (file_path_of (clock E) fn) content = Ok u ->
  extract_text (readers E) content (lower (splitext_ext fn)) = Ok t ->
  exists meta,
    (handle E w (Upload (Some fn) content)).2 =
      {| status := 200; body := BUploaded (m_id meta) meta (process_resume t) |} /\
    get_candidate (handle E w (Upload (Some fn) content)).1 (m_id meta) =
      {| status := 200; body := BCandidate (candidate_of_doc (doc_of_data (m_id meta) (process_resume t))) |}.
Proof.
  intros Hfn Hext Hu Ht. destruct fn as [|c fn]; [done|].
  destruct (upload_file_ok (storage E) (clock E) content (c :: fn) (blob_store w) u Hu)
    as (b & meta & Hup & _).
  exists meta. simpl. rewrite Hext. simpl. rewrite Hup, Ht. simpl. split; [done|].
  unfold get_candidate, get_candidate_by_id. simpl. by rewrite find_one_to_map, to_map_upsert, lookup_insert_eq.
Qed.

Lemma upload_then_get_witness :
  ‹"cv.pdf"› <> [] /\ list_mem (lower (splitext_ext ‹"cv.pdf"›)) [‹".pdf"›; ‹".docx"›] = true /\
  st_upload (storage env0) (file_path_of (clock env0) ‹"cv.pdf"›) [] = Ok tt /\
  extract_text (readers env0) [] (lower (splitext_ext ‹"cv.pdf"›)) = Ok (sample_resume ++ [nl]) /\
  exists meta,
    (handle env0 init (Upload (Some ‹"cv.pdf"›) [])).2 =
      {| status := 200; body := BUploaded (m_id meta) meta (process_resume (sample_resume ++ [nl])) |} /\
    get_candidate (handle env0 init (Upload (Some ‹"cv.pdf"›) [])).1 (m_id meta) =
      {| status := 200;
         body := BCandidate (candidate_of_doc (doc_of_data (m_id meta) (process_resume (sample_resume ++ [nl])))) |}.
Proof.
  do 4 (split; [try discriminate; reflexivity|]).
  apply (upload_then_get _ _ _ _ tt); [discriminate|reflexivity..].
Defined.

End Api.
